(** * gradle_cache_to_mvn_repo: the repository model, the cache scanner and
      the Maven writer, embedded from [gradle_cache_to_mvn_repo.py]. *)

From Stdlib Require Import Ascii String ZArith.
From stdpp Require Import base strings list gmap.

Local Open Scope string_scope.
Local Open Scope list_scope.

(** ** Exceptions and results *)

(** The exception classes the script can raise: two come from the object
    model, the others from [os] and [shutil]. *)
Inductive exn : Type :=
  | AttributeError
  | KeyError
  | FileNotFoundError
  | NotADirectoryError
  | IsADirectoryError
  | FileExistsError
  | SameFileError.


Inductive result (A : Type) : Type :=
  | Ok (a : A)
  | Raise (e : exn).
Arguments Ok {A} a.
Arguments Raise {A} e.

Definition rbind {A B} (r : result A) (k : A -> result B) : result B :=
  match r with
  | Ok a => k a
  | Raise e => Raise e
  end.

Notation "'do' x <- c ; k" := (rbind c (fun x => k))
  (at level 10, x name, c at level 100, k at level 200,
   format "'[v' 'do'  x  <-  c ; '/' k ']'").

(** A [for] loop whose body may raise and that threads an accumulator. *)
Fixpoint rfold {A S} (body : S -> A -> result S) (l : list A) (s : S)
  : result S :=
  match l with
  | [] => Ok s
  | x :: r => do s' <- body s x ; rfold body r s'
  end.

(** ** Python strings *)

(** [s.replace(old, new)] for one-character [old] and [new]. *)
Fixpoint str_replace (old new : ascii) (s : string) : string :=
  match s with
  | EmptyString => EmptyString
  | String c r =>
      String (if Ascii.eqb c old then new else c) (str_replace old new r)
  end.

(** [s.split(sep)] for a one-character separator. *)
Fixpoint str_split (sep : ascii) (s : string) : list string :=
  match s with
  | EmptyString => [EmptyString]
  | String c r =>
      if Ascii.eqb c sep then EmptyString :: str_split sep r
      else match str_split sep r with
           | [] => [String c EmptyString]
           | h :: t => String c h :: t
           end
  end.

Fixpoint str_endswith (c : ascii) (s : string) : bool :=
  match s with
  | EmptyString => false
  | String a EmptyString => Ascii.eqb a c
  | String _ r => str_endswith c r
  end.

Definition str_startswith (p s : string) : bool := String.prefix p s.

(** [self.id.equals(other_group.id)]: the identifiers are [str] values (they
    are names returned by [os.listdir]) and [str] has no attribute [equals],
    so evaluating the attribute reference raises before anything is
    compared. *)
Definition str_equals (a b : string) : result bool := Raise AttributeError.

(** ** Python dicts: insertion-ordered, keyed by strings *)

Module Dict.
Definition t (V : Type) : Type := list (string * V).

Fixpoint get {V} (k : string) (d : t V) : option V :=
  match d with
  | [] => None
  | (k', v) :: r => if String.eqb k k' then Some v else get k r
  end.

Definition mem {V} (k : string) (d : t V) : bool :=
  match get k d with Some _ => true | None => false end.

(** [d[k] = v]: an existing key keeps its position, a new one goes last. *)
Fixpoint set {V} (k : string) (v : V) (d : t V) : t V :=
  match d with
  | [] => [(k, v)]
  | (k', v') :: r =>
      if String.eqb k k' then (k', v) :: r else (k', v') :: set k v r
  end.

Definition keys {V} (d : t V) : list string := map fst d.

(** [d[k]] as an expression. *)
Definition item {V} (k : string) (d : t V) : result V :=
  match get k d with Some v => Ok v | None => Raise KeyError end.
End Dict.

(** ** The object model *)

Module ArtifactEntry.
Record t : Type := mk { file_name : string; location : string }.

Definition get_full_path (self : t) : string :=
  location self +:+ "/" +:+ file_name self.

Section Hash.
(** The builtin [hash] on a pair of strings; its values are not fixed by
    the language, only that it is a function of the pair. *)
Variable py_hash : string * string -> Z.

Definition __hash__ (self : t) : Z :=
  py_hash (file_name self, location self).
End Hash.

Definition __eq__ (self other : t) : bool :=
  String.eqb (file_name self) (file_name other)
  && String.eqb (location self) (location other).

Definition __ne__ (self other : t) : bool := negb (__eq__ self other).
End ArtifactEntry.

Module Artifact.
(** [oid] is the identity of the object ([id(obj)] in Python): the class
    defines neither [__eq__] nor [__hash__], so [==] and [in] compare
    identities.  [Artifact(id)] takes the next free identity. *)
Record t : Type := mk {
  oid : nat;
  id : string;
  versioned_entries : Dict.t (list ArtifactEntry.t)
}.

Definition init (o : nat) (i : string) : t :=
  {| oid := o; id := i; versioned_entries := [] |}.

(** [self == other] on two [Artifact] objects: the comparison inherited
    from [object]. *)
Definition same_object (self other : t) : bool :=
  Nat.eqb (oid self) (oid other).

Definition append_entry (self : t) (version : string)
    (entry : ArtifactEntry.t) : result t :=
  let d :=
    if negb (Dict.mem version (versioned_entries self))
    then Dict.set version [entry] (versioned_entries self)
    else versioned_entries self in
  do l <- Dict.item version d ;
  Ok {| oid := oid self; id := id self;
        versioned_entries := Dict.set version (l ++ [entry]) d |}.

Definition get_versions (self : t) : list string :=
  Dict.keys (versioned_entries self).

Definition get_entries (self : t) (version : string)
  : result (list ArtifactEntry.t) :=
  Dict.item version (versioned_entries self).
End Artifact.

Module Group.
Record t : Type := mk {
  id : string;
  path : string;
  artifacts : list Artifact.t
}.

Definition init (i p : string) : t :=
  {| id := i; path := p; artifacts := [] |}.

(** [artifact in self.artifacts] *)
Definition contains (l : list Artifact.t) (artifact : Artifact.t) : bool :=
  existsb (fun x => Artifact.same_object x artifact) l.

Definition add_artifact (self : t) (artifact : Artifact.t) : t :=
  if negb (contains (artifacts self) artifact)
  then {| id := id self; path := path self;
          artifacts := artifacts self ++ [artifact] |}
  else self.

Definition merge (self other_group : t) : result t :=
  do same <- str_equals (id self) (id other_group) ;
  if (same : bool)
  then Ok (fold_left add_artifact (artifacts other_group) self)
  else Ok self.

Definition get_as_path (self : t) : string :=
  str_replace "." "/" (id self).
End Group.

(** The private method [__create_group_path] is never called and is left
    out. *)
Module ArtifactRepo.
Record t : Type := mk { groups : Dict.t Group.t }.

Definition init : t := {| groups := [] |}.

Definition add_group (self : t) (group : Group.t) : result t :=
  if Dict.mem (Group.id group) (groups self)
  then
    do existing <- Dict.item (Group.id group) (groups self) ;
    do merged <- Group.merge existing group ;
    Ok {| groups := Dict.set (Group.id group) merged (groups self) |}
  else
    Ok {| groups := Dict.set (Group.id group) group (groups self) |}.
End ArtifactRepo.

(** ** The filesystem of [os], [glob] and [shutil]

    A tree of directories and regular files, stored as a finite map from
    resolved paths (the list of components below the root) to nodes.
    Permissions, links and special files are not part of the model. *)

Inductive node : Type :=
  | File (content : list Byte.byte)
  | Dir.

Abbreviation fs := (gmap (list string) node).

(** Commands that change the filesystem and may raise; the filesystem
    reached when an exception is raised is kept. *)
Definition io (A : Type) : Type := fs -> result A * fs.

Definition io_ret {A} (a : A) : io A := fun m => (Ok a, m).

Definition io_bind {A B} (c : io A) (k : A -> io B) : io B :=
  fun m =>
    match c m with
    | (Ok a, m') => k a m'
    | (Raise e, m') => (Raise e, m')
    end.

Definition io_lift {A} (r : result A) : io A := fun m => (r, m).

Notation "'io!' x <- c ; k" := (io_bind c (fun x => k))
  (at level 10, x name, c at level 100, k at level 200,
   format "'[v' 'io!'  x  <-  c ; '/' k ']'").
Notation "c1 ;; c2" := (io_bind c1 (fun _ => c2))
  (at level 100, c2 at level 200, right associativity).

Fixpoint io_for {A} (body : A -> io unit) (l : list A) : io unit :=
  match l with
  | [] => io_ret tt
  | x :: r => body x ;; io_for body r
  end.

Module os.
(** [os.path.join(a, b)] on POSIX. *)
Definition path_join (a b : string) : string :=
  if str_startswith "/" b then b
  else if String.eqb a "" || str_endswith "/" a then a +:+ b
  else a +:+ "/" +:+ b.

(** One step of path resolution: empty and [.] components stay in place,
    [..] goes to the parent (the root is its own parent). *)
Definition descend (at_ : list string) (c : string) : list string :=
  if String.eqb c "" || String.eqb c "." then at_
  else if String.eqb c ".." then removelast at_
  else at_ ++ [c].

(** A component that names a file or a directory. *)
Definition is_name (c : string) : bool :=
  negb (String.eqb c "") && negb (String.eqb c ".")
  && negb (String.eqb c "..").

(** A path in normal form: names separated by single separators, after an
    optional leading separator; no empty, [.] or [..] component and no
    separator at the end. *)
Definition plain (p : string) : bool :=
  match str_split "/" p with
  | [] => false
  | [c] => is_name c
  | c :: rest => (String.eqb c "" || is_name c) && forallb is_name rest
  end.

(** Whether a regular file lies on the way to [above ++ todo], that is at
    [above] or at one of the paths between it and the last component. *)
Fixpoint file_on_path (m : fs) (above todo : list string) : bool :=
  match todo with
  | [] => false
  | c :: rest =>
      match m !! above with
      | Some (File _) => true
      | _ => file_on_path m (above ++ [c]) rest
      end
  end.

(** The error for a path with no node: ENOTDIR when a regular file lies on
    the way to it, ENOENT otherwise. *)
Definition missing_error (m : fs) (rp : list string) : exn :=
  if file_on_path m [] rp then NotADirectoryError else FileNotFoundError.

Section Process.
(** The working directory of the process; the script never changes it. *)
Variable cwd : list string.

(** The node a path string names; the empty path names nothing.  A [..]
    component is cancelled against the component before it without a look
    at the filesystem, where the operating system needs that component to
    be a directory; the two agree on the paths that are [plain]. *)
Definition resolve (p : string) : option (list string) :=
  if String.eqb p "" then None
  else Some (fold_left descend (str_split "/" p)
               (if str_startswith "/" p then [] else cwd)).

Definition lookup_path (m : fs) (p : string) : option node :=
  match resolve p with
  | Some rp => m !! rp
  | None => None
  end.

Definition path_exists (m : fs) (p : string) : bool :=
  match lookup_path m p with Some _ => true | None => false end.

Definition path_isdir (m : fs) (p : string) : bool :=
  match lookup_path m p with Some Dir => true | _ => false end.

(** The name of [k] when [k] lies directly in directory [rp]. *)
Fixpoint child_name (rp k : list string) : option string :=
  match rp, k with
  | [], [n] => Some n
  | a :: rp', b :: k' => if String.eqb a b then child_name rp' k' else None
  | _, _ => None
  end.

Definition children (m : fs) (rp : list string) : list string :=
  omap (fun kv => child_name rp (fst kv)) (map_to_list m).

Definition listdir (m : fs) (p : string) : result (list string) :=
  match resolve p with
  | None => Raise FileNotFoundError
  | Some rp =>
      match m !! rp with
      | None => Raise (missing_error m rp)
      | Some (File _) => Raise NotADirectoryError
      | Some Dir => Ok (children m rp)
      end
  end.

(** [os.mkdir] along the components [todo] below [done]: missing
    ancestors are created, the last component has to be new. *)
Fixpoint mkdir_chain (done todo : list string) (m : fs)
  : result unit * fs :=
  match todo with
  | [] => (Raise FileExistsError, m)
  | c :: rest =>
      let q := done ++ [c] in
      match rest with
      | [] =>
          match m !! q with
          | None => (Ok tt, <[q := Dir]> m)
          | Some _ => (Raise FileExistsError, m)
          end
      | _ :: _ =>
          match m !! q with
          | None => mkdir_chain q rest (<[q := Dir]> m)
          | Some Dir => mkdir_chain q rest m
          | Some (File _) => (Raise NotADirectoryError, m)
          end
      end
  end.

Definition makedirs (p : string) : io unit :=
  fun m =>
    match resolve p with
    | None => (Raise FileNotFoundError, m)
    | Some rp => mkdir_chain [] rp m
    end.
End Process.
End os.

Module glob.
(** [glob.has_magic]: the string holds one of the wildcard characters
    [*], [?] and [[]. *)
Fixpoint has_magic (s : string) : bool :=
  match s with
  | EmptyString => false
  | String c r =>
      Ascii.eqb c "*" || Ascii.eqb c "?" || Ascii.eqb c "[" || has_magic r
  end.

Section Process.
Variable cwd : list string.

(** The names [glob] sees in a directory: none when it cannot be
    listed. *)
Definition scandir (m : fs) (d : string) : list string :=
  match os.listdir cwd m d with
  | Ok names => names
  | Raise _ => []
  end.

(** [glob.glob(os.path.join(cache_dir, "caches/modules-*/files-*"))] for
    a [cache_dir] without wildcard characters ([has_magic cache_dir =
    false]): the directories [modules-*] of [cache_dir/caches], then every
    name [files-*] in them.  [glob] also expands the wildcards of
    [cache_dir] itself; that expansion is not part of the model, which
    follows the program for a [cache_dir] without them. *)
Definition glob_module_paths (m : fs) (cache_dir : string) : list string :=
  let caches := os.path_join cache_dir "caches" in
  flat_map
    (fun module =>
       let d := os.path_join caches module in
       map (os.path_join d)
         (filter (fun n => str_startswith "files-" n = true) (scandir m d)))
    (filter
       (fun n => str_startswith "modules-" n
                 && os.path_isdir cwd m (os.path_join caches n) = true)
       (scandir m caches)).
End Process.
End glob.

Module shutil.
Section Process.
Variable cwd : list string.

Definition copyfile (src dst : string) : io unit :=
  fun m =>
    match os.resolve cwd src, os.resolve cwd dst with
    | Some rs, Some rd =>
        if bool_decide (rs = rd) && bool_decide (is_Some (m !! rs))
        then (Raise SameFileError, m)
        else
          match m !! rs with
          | None => (Raise (os.missing_error m rs), m)
          | Some Dir => (Raise IsADirectoryError, m)
          | Some (File content) =>
              match m !! rd with
              | Some Dir => (Raise IsADirectoryError, m)
              | _ =>
                  match m !! removelast rd with
                  | Some Dir => (Ok tt, <[rd := File content]> m)
                  | Some (File _) => (Raise NotADirectoryError, m)
                  | None => (Raise (os.missing_error m rd), m)
                  end
              end
          end
    | _, _ => (Raise FileNotFoundError, m)
    end.

Definition rmtree (p : string) : io unit :=
  fun m =>
    match os.resolve cwd p with
    | None => (Raise FileNotFoundError, m)
    | Some rp =>
        match m !! rp with
        | None => (Raise (os.missing_error m rp), m)
        | Some (File _) => (Raise NotADirectoryError, m)
        | Some Dir =>
            (Ok tt, filter (fun kv => ¬ rp `prefix_of` fst kv) m)
        end
    end.
End Process.
End shutil.

(** ** The cache scanner *)

Module GradleCache.
Section Process.
Variable cwd : list string.

Definition generate_groups (m : fs) (cache_dir : string)
    (repo : ArtifactRepo.t) : result ArtifactRepo.t :=
  rfold
    (fun repo module_path =>
       do names <- os.listdir cwd m module_path ;
       rfold
         (fun repo group_id =>
            ArtifactRepo.add_group repo
              (Group.init group_id (os.path_join module_path group_id)))
         names repo)
    (glob.glob_module_paths cwd m cache_dir) repo.

Definition load_artifact_entries_by_version (m : fs) (artifact : Artifact.t)
    (artifact_path version : string) : result Artifact.t :=
  let artifact_version_path := os.path_join artifact_path version in
  do hashes <- os.listdir cwd m artifact_version_path ;
  rfold
    (fun artifact gradle_hash =>
       let gradle_hash_path :=
         os.path_join artifact_version_path gradle_hash in
       do files <- os.listdir cwd m gradle_hash_path ;
       rfold
         (fun artifact file =>
            Artifact.append_entry artifact version
              (ArtifactEntry.mk file gradle_hash_path))
         files artifact)
    hashes artifact.

(** [next] is the identity the new [Artifact] object gets. *)
Definition load_artifact (m : fs) (next : nat)
    (artifact_path artifact_id : string) : result Artifact.t :=
  let artifact := Artifact.init next artifact_id in
  do versions <- os.listdir cwd m artifact_path ;
  rfold
    (fun artifact artifact_version =>
       load_artifact_entries_by_version m artifact artifact_path
         artifact_version)
    versions artifact.

(** The loop runs over the keys the dict has when it starts; its body
    changes the group objects, never the set of keys.  The state is the
    repository with the number of [Artifact] objects created so far. *)
Definition generate_artifacts (m : fs) (st : ArtifactRepo.t * nat)
  : result (ArtifactRepo.t * nat) :=
  rfold
    (fun st group_id =>
       do group <- Dict.item group_id (ArtifactRepo.groups (fst st)) ;
       let group_path := Group.path group in
       do names <- os.listdir cwd m group_path ;
       rfold
         (fun st artifact_id =>
            let artifact_path := os.path_join group_path artifact_id in
            do artifact <- load_artifact m (snd st) artifact_path artifact_id ;
            do group <- Dict.item group_id (ArtifactRepo.groups (fst st)) ;
            Ok ({| ArtifactRepo.groups :=
                     Dict.set group_id (Group.add_artifact group artifact)
                       (ArtifactRepo.groups (fst st)) |},
                S (snd st)))
         names st)
    (Dict.keys (ArtifactRepo.groups (fst st))) st.

(** [GradleCache().load(cache_dir)], returning the [repo] attribute. *)
Definition load (m : fs) (cache_dir : string) : result ArtifactRepo.t :=
  do repo <- generate_groups m cache_dir ArtifactRepo.init ;
  do st <- generate_artifacts m (repo, 0) ;
  Ok (fst st).
End Process.
End GradleCache.

(** ** The writer *)

Module MavenRepoWriter.
Section Process.
Variable cwd : list string.

(** The body of the innermost loop. *)
Definition write_entry (version_path : string) (entry : ArtifactEntry.t)
  : io unit :=
  (fun m =>
     if negb (os.path_exists cwd m version_path)
     then os.makedirs cwd version_path m
     else io_ret tt m) ;;
  let entry_path :=
    os.path_join version_path (ArtifactEntry.file_name entry) in
  shutil.copyfile cwd (ArtifactEntry.get_full_path entry) entry_path.

Definition write_artifact (group_path : string) (artifact : Artifact.t)
  : io unit :=
  let artifact_path := os.path_join group_path (Artifact.id artifact) in
  io_for
    (fun version =>
       let version_path := os.path_join artifact_path version in
       io! entries <-
         io_lift (Dict.item version (Artifact.versioned_entries artifact)) ;
       io_for (write_entry version_path) entries)
    (Dict.keys (Artifact.versioned_entries artifact)).

Definition write_group (repo : ArtifactRepo.t) (target_dir group_id : string)
  : io unit :=
  io! group <- io_lift (Dict.item group_id (ArtifactRepo.groups repo)) ;
  let group_path := os.path_join target_dir (Group.get_as_path group) in
  io_for (write_artifact group_path) (Group.artifacts group).

Definition write (repo : ArtifactRepo.t) (target_dir : string) : io unit :=
  (fun m =>
     if negb (os.path_exists cwd m target_dir)
     then os.makedirs cwd target_dir m
     else io_ret tt m) ;;
  io_for (write_group repo target_dir) (Dict.keys (ArtifactRepo.groups repo)).
End Process.
End MavenRepoWriter.

(** ** The orchestrator *)

Section Process.
Variable cwd : list string.

Definition cleanup_mvn_dir (mvn_dir : string) : io unit :=
  shutil.rmtree cwd mvn_dir.

(** The parsed command line: both paths are required by the parser. *)
Record args : Type := {
  gradle_cache_dir : string;
  target_mvn_dir : string;
  pre_clean_mvn_dir : bool
}.

Definition main (a : args) : io unit :=
  io! repo <- (fun m => (GradleCache.load cwd m (gradle_cache_dir a), m)) ;
  (if pre_clean_mvn_dir a
   then cleanup_mvn_dir (target_mvn_dir a)
   else io_ret tt) ;;
  MavenRepoWriter.write cwd repo (target_mvn_dir a).
End Process.

(** ** Notions used to state the properties *)

(** The entries one version of an artifact holds in the cache, in the order
    the listings give them: for every content-hash directory, its names. *)
Definition discovered_entries (cwd : list string) (m : fs)
    (artifact_path version : string) : result (list ArtifactEntry.t) :=
  let artifact_version_path := os.path_join artifact_path version in
  do hashes <- os.listdir cwd m artifact_version_path ;
  rfold
    (fun found gradle_hash =>
       let gradle_hash_path :=
         os.path_join artifact_version_path gradle_hash in
       do files <- os.listdir cwd m gradle_hash_path ;
       Ok (found ++ map (fun f => ArtifactEntry.mk f gradle_hash_path) files))
    hashes [].

(** Appending a run of entries to one version of an artifact. *)
Definition append_all (version : string) (a : Artifact.t)
    (es : list ArtifactEntry.t) : result Artifact.t :=
  rfold (fun a e => Artifact.append_entry a version e) es a.

(** The copies a write performs, in order: the version directory with the
    entry copied into it. *)
Definition plan_of_artifact (group_path : string) (artifact : Artifact.t)
  : list (string * ArtifactEntry.t) :=
  flat_map
    (fun version =>
       match Dict.get version (Artifact.versioned_entries artifact) with
       | Some entries =>
           map (pair (os.path_join
                        (os.path_join group_path (Artifact.id artifact))
                        version))
               entries
       | None => []
       end)
    (Dict.keys (Artifact.versioned_entries artifact)).

Definition plan_of_group (target_dir : string) (group : Group.t)
  : list (string * ArtifactEntry.t) :=
  flat_map
    (plan_of_artifact (os.path_join target_dir (Group.get_as_path group)))
    (Group.artifacts group).

Definition copy_plan (repo : ArtifactRepo.t) (target_dir : string)
  : list (string * ArtifactEntry.t) :=
  flat_map
    (fun group_id =>
       match Dict.get group_id (ArtifactRepo.groups repo) with
       | Some group => plan_of_group target_dir group
       | None => []
       end)
    (Dict.keys (ArtifactRepo.groups repo)).

Definition copy_src (cwd : list string) (op : string * ArtifactEntry.t)
  : option (list string) :=
  os.resolve cwd (ArtifactEntry.get_full_path (snd op)).

Definition copy_dst (cwd : list string) (op : string * ArtifactEntry.t)
  : option (list string) :=
  os.resolve cwd (os.path_join (fst op) (ArtifactEntry.file_name (snd op))).

(** The location [target_root/<G-as-path>/<A.id>/<V>/<file_name>] as the
    writer computes it. *)
Definition target_location (target_dir : string) (group : Group.t)
    (artifact : Artifact.t) (version : string) (entry : ArtifactEntry.t)
  : string :=
  os.path_join
    (os.path_join
       (os.path_join
          (os.path_join target_dir (Group.get_as_path group))
          (Artifact.id artifact))
       version)
    (ArtifactEntry.file_name entry).

(** What a command may do to the node at [p] when all it creates there is
    a directory: leave it, or make a directory where nothing was. *)
Definition grown (m m' : fs) (p : list string) : Prop :=
  m' !! p = m !! p \/ (m !! p = None /\ m' !! p = Some Dir).

(** One successful copy of the file at [rs] to [rd], with the directories
    made on the way. *)
Record copied (rs rd : list string) (content : list Byte.byte) (m m' : fs)
  : Prop := {
  copied_ne : rs <> rd;
  copied_src : m !! rs = Some (File content);
  copied_dst_old : m !! rd <> Some Dir;
  copied_dst : m' !! rd = Some (File content);
  copied_parent : m' !! removelast rd = Some Dir;
  copied_frame : forall p, p <> rd -> grown m m' p
}.

(** The writer's loops over a plan. *)
Definition run_plan (cwd : list string) (plan : list (string * ArtifactEntry.t))
  : io unit :=
  io_for (fun op => MavenRepoWriter.write_entry cwd (fst op) (snd op)) plan.

(** A plan is settled in a filesystem where every copy of it has been made
    once: sources and targets are files, and the directories exist. *)
Definition settled (cwd : list string) (plan : list (string * ArtifactEntry.t))
    (m : fs) : Prop :=
  forall op, In op plan ->
    exists rs rd cs cd,
      copy_src cwd op = Some rs /\ copy_dst cwd op = Some rd /\ rs <> rd
      /\ m !! rs = Some (File cs) /\ m !! rd = Some (File cd)
      /\ m !! removelast rd = Some Dir
      /\ os.path_exists cwd m (fst op) = true.

(** The copies of a plan alone, on a filesystem where it is settled. *)
Definition replay_copy (cwd : list string) (m : fs)
    (op : string * ArtifactEntry.t) : fs :=
  match copy_src cwd op, copy_dst cwd op with
  | Some rs, Some rd =>
      match m !! rs with
      | Some (File content) => <[rd := File content]> m
      | _ => m
      end
  | _, _ => m
  end.

Definition replay (cwd : list string) (plan : list (string * ArtifactEntry.t))
    (m : fs) : fs :=
  fold_left (replay_copy cwd) plan m.





(** The group directories of the cache, in the order the first pass comes
    to them: for every module root the wildcard match returned, the names
    in it, each with its root. *)
Definition discovered_groups (cwd : list string) (m : fs)
    (cache_dir : string) : result (list (string * string)) :=
  rfold
    (fun found module_path =>
       do names <- os.listdir cwd m module_path ;
       Ok (found ++ map (pair module_path) names))
    (glob.glob_module_paths cwd m cache_dir) [].

(** The group the first pass makes for a directory [group_id] of
    [module_path], with the key it is stored under. *)
Definition group_of_discovery (d : string * string) : string * Group.t :=
  (snd d, Group.init (snd d) (os.path_join (fst d) (snd d))).

Definition add_discovered (repo : ArtifactRepo.t)
    (found : list (string * string)) : result ArtifactRepo.t :=
  rfold
    (fun repo d => ArtifactRepo.add_group repo (snd (group_of_discovery d)))
    found repo.

(** Every [Artifact] object of a scanner state was made before the state's
    counter reached its value. *)
Definition oids_below (st : ArtifactRepo.t * nat) : Prop :=
  forall k g a,
    Dict.get k (ArtifactRepo.groups (fst st)) = Some g ->
    In a (Group.artifacts g) ->
    Artifact.oid a < snd st.

(** The artifact is what loading the directory named like it in
    [group_path] returns. *)
Definition loaded_from (cwd : list string) (m : fs) (group_path : string)
    (a : Artifact.t) : Prop :=
  GradleCache.load_artifact cwd m (Artifact.oid a)
    (os.path_join group_path (Artifact.id a)) (Artifact.id a) = Ok a.


(** The cache holds the file of entry [e] for a version of an artifact of
    a group: the group directory is one the first pass discovers, the
    artifact and the version are names listed in it, and the entry is among
    those discovered in the version's content-hash directories. *)
Definition in_cache (cwd : list string) (m : fs) (cache_dir : string)
    (group_id artifact_id version : string) (e : ArtifactEntry.t) : Prop :=
  exists found module_path artifact_ids versions es,
    discovered_groups cwd m cache_dir = Ok found
    /\ In (module_path, group_id) found
    /\ os.listdir cwd m (os.path_join module_path group_id) = Ok artifact_ids
    /\ In artifact_id artifact_ids
    /\ os.listdir cwd m
         (os.path_join (os.path_join module_path group_id) artifact_id)
       = Ok versions
    /\ In version versions
    /\ discovered_entries cwd m
         (os.path_join (os.path_join module_path group_id) artifact_id)
         version = Ok es
    /\ In e es.

(** ** Sample filesystems *)

Fixpoint ancestors_from (done todo : list string) : list (list string) :=
  match todo with
  | [] => [done]
  | c :: r => done :: ancestors_from (done ++ [c]) r
  end.

Definition put_dir (p : list string) (m : fs) : fs :=
  fold_left (fun m q => <[q := Dir]> m) (ancestors_from [] p) m.

Definition put_file (p : list string) (content : list Byte.byte) (m : fs)
  : fs :=
  <[p := File content]> (put_dir (removelast p) m).

Definition files_2_1 : list string :=
  ["cache"; "caches"; "modules-2"; "files-2.1"].

(** The cache of the end-to-end scenario: one jar of [org.foo:bar:1.0.0]. *)
Definition cache_one_jar : fs :=
  put_file (files_2_1 ++ ["org.foo"; "bar"; "1.0.0"; "abcd1234";
                          "bar-1.0.0.jar"])
    [Byte.x50; Byte.x4b] ∅.

(** The same jar name under two content hashes of one version, with
    different bytes. *)
Definition cache_two_hashes : fs :=
  put_file (files_2_1 ++ ["org.foo"; "bar"; "1.0.0"; "aaaa"; "bar.jar"])
    [Byte.x01]
    (put_file (files_2_1 ++ ["org.foo"; "bar"; "1.0.0"; "bbbb"; "bar.jar"])
       [Byte.x02] ∅).

(** [org.foo] stored under two module roots. *)
Definition cache_two_roots : fs :=
  put_dir ["cache"; "caches"; "modules-2"; "files-2.1"; "org.foo"]
    (put_dir ["cache"; "caches"; "modules-3"; "files-3.0"; "org.foo"] ∅).

(** The one-jar cache with a version directory [2.0.0] that holds
    nothing. *)
Definition cache_empty_version : fs :=
  put_dir (files_2_1 ++ ["org.foo"; "bar"; "2.0.0"]) cache_one_jar.

(** What the scanner builds from [cache_one_jar]. *)
Definition entry_jar : ArtifactEntry.t :=
  ArtifactEntry.mk "bar-1.0.0.jar"
    "/cache/caches/modules-2/files-2.1/org.foo/bar/1.0.0/abcd1234".

Definition artifact_one_jar : Artifact.t :=
  {| Artifact.oid := 0; Artifact.id := "bar";
     Artifact.versioned_entries := [("1.0.0", [entry_jar; entry_jar])] |}.

Definition group_one_jar : Group.t :=
  {| Group.id := "org.foo";
     Group.path := "/cache/caches/modules-2/files-2.1/org.foo";
     Group.artifacts := [artifact_one_jar] |}.

Definition repo_one_jar : ArtifactRepo.t :=
  {| ArtifactRepo.groups := [("org.foo", group_one_jar)] |}.

(** A group made from a directory whose name starts with a dot. *)
Definition group_hidden : Group.t :=
  {| Group.id := ".hidden";
     Group.path := "/cache/caches/modules-2/files-2.1/.hidden";
     Group.artifacts := [artifact_one_jar] |}.

(** What the scanner builds from [cache_two_hashes]. *)
Definition bar_1_0_0 : string :=
  "/cache/caches/modules-2/files-2.1/org.foo/bar/1.0.0".

Definition entry_aaaa : ArtifactEntry.t :=
  ArtifactEntry.mk "bar.jar" (bar_1_0_0 +:+ "/aaaa").

Definition entry_bbbb : ArtifactEntry.t :=
  ArtifactEntry.mk "bar.jar" (bar_1_0_0 +:+ "/bbbb").

Definition artifact_two_hashes : Artifact.t :=
  {| Artifact.oid := 0; Artifact.id := "bar";
     Artifact.versioned_entries :=
       [("1.0.0", [entry_bbbb; entry_bbbb; entry_aaaa])] |}.

Definition group_two_hashes : Group.t :=
  {| Group.id := "org.foo";
     Group.path := "/cache/caches/modules-2/files-2.1/org.foo";
     Group.artifacts := [artifact_two_hashes] |}.

Definition repo_two_hashes : ArtifactRepo.t :=
  {| ArtifactRepo.groups := [("org.foo", group_two_hashes)] |}.

(** A cache directory with nothing in it. *)
Definition cache_empty : fs := put_dir ["cache"] ∅.

(** The one-jar cache next to a target directory left by an earlier run. *)
Definition cache_and_stale_target : fs :=
  put_file ["target"; "old"; "stale.txt"] [Byte.x00] cache_one_jar.


Definition run_args (pre_clean : bool) : args :=
  {| gradle_cache_dir := "/cache"; target_mvn_dir := "/target";
     pre_clean_mvn_dir := pre_clean |}.

(** * Properties *)

(** ** Results and loops *)

Lemma rbind_ok {A B} (r : result A) (k : A -> result B) (b : B) :
  rbind r k = Ok b -> exists a, r = Ok a /\ k a = Ok b.
Proof. destruct r as [a|e]; simpl; [eauto | discriminate]. Qed.

Lemma rfold_app {A S} (body : S -> A -> result S) (l1 l2 : list A) (s : S) :
  rfold body (l1 ++ l2) s = rbind (rfold body l1 s) (rfold body l2).
Proof.
  revert s. induction l1 as [|x l1 IH]; intros s; simpl; [done|].
  destruct (body s x) as [s'|e]; simpl; [apply IH | done].
Qed.

Lemma rfold_map {A B S} (body : S -> B -> result S) (f : A -> B)
    (l : list A) (s : S) :
  rfold body (map f l) s = rfold (fun s x => body s (f x)) l s.
Proof.
  revert s. induction l as [|x l IH]; intros s; simpl; [done|].
  destruct (body s (f x)); simpl; [apply IH | done].
Qed.

(** ** Strings *)

Lemma str_replace_app (old new : ascii) (a b : string) :
  str_replace old new (a +:+ b)
  = str_replace old new a +:+ str_replace old new b.
Proof. induction a as [|c a IH]; simpl; [done | by rewrite IH]. Qed.

Lemma str_replace_length (old new : ascii) (s : string) :
  String.length (str_replace old new s) = String.length s.
Proof. induction s as [|c s IH]; simpl; [done | by rewrite IH]. Qed.

Lemma str_replace_get (old new : ascii) (s : string) (i : nat) :
  String.get i (str_replace old new s)
  = (fun c => if Ascii.eqb c old then new else c) <$> String.get i s.
Proof.
  revert i. induction s as [|c s IH]; intros i; simpl; [done|].
  destruct i as [|i]; simpl; [done | apply IH].
Qed.

Lemma str_replace_absent (old new : ascii) (s : string) :
  (forall i, String.get i s <> Some old) -> str_replace old new s = s.
Proof.
  induction s as [|c s IH]; intros H; simpl; [done|].
  destruct (Ascii.eqb_spec c old) as [->|_].
  - by destruct (H 0).
  - f_equal. apply IH. intros i. apply (H (S i)).
Qed.

Lemma str_split_nonempty (sep : ascii) (s : string) : str_split sep s <> [].
Proof.
  destruct s as [|c s]; simpl; [done|].
  destruct (Ascii.eqb c sep); [done|]. by destruct (str_split sep s).
Qed.

(** Splitting at a separator splits the list of segments. *)
Lemma str_split_sep (sep : ascii) (a b : string) :
  str_split sep (a +:+ String sep b) = str_split sep a ++ str_split sep b.
Proof.
  induction a as [|c a IH]; simpl.
  - by rewrite Ascii.eqb_refl.
  - destruct (Ascii.eqb c sep); [by rewrite IH|].
    rewrite IH. pose proof (str_split_nonempty sep a) as Hne.
    by destruct (str_split sep a).
Qed.

(** ** Dicts *)

Lemma dict_mem_get {V} (k : string) (d : Dict.t V) :
  Dict.mem k d = true <-> is_Some (Dict.get k d).
Proof.
  unfold Dict.mem. destruct (Dict.get k d); split; intros H;
    try done; try (by eexists); by destruct H.
Qed.

Lemma dict_get_set_eq {V} (k : string) (v : V) (d : Dict.t V) :
  Dict.get k (Dict.set k v d) = Some v.
Proof.
  induction d as [|[k' v'] d IH]; simpl.
  - by rewrite String.eqb_refl.
  - destruct (String.eqb k k') eqn:E; simpl; rewrite E; [done | apply IH].
Qed.

Lemma dict_set_set {V} (k : string) (v w : V) (d : Dict.t V) :
  Dict.set k w (Dict.set k v d) = Dict.set k w d.
Proof.
  induction d as [|[k' v'] d IH]; simpl.
  - by rewrite String.eqb_refl.
  - destruct (String.eqb k k') eqn:E; simpl; rewrite E; [done | by rewrite IH].
Qed.

Lemma dict_get_keys {V} (k : string) (d : Dict.t V) :
  In k (Dict.keys d) <-> is_Some (Dict.get k d).
Proof.
  induction d as [|[k' v'] d IH]; simpl.
  - split; [done | by intros [? ?]].
  - destruct (String.eqb_spec k k') as [->|Hne].
    + split; [by eexists | by left].
    + rewrite <- IH. split; [intros [?|?]; [congruence | done] | by right].
Qed.

(** ** Identifiers and entries *)

(** C5: the conversion of a group identifier to a path replaces every ['.']
    by ['/'] and changes nothing else: [com.example.foo] becomes
    [com/example/foo], an identifier without dots is returned as it is, and
    two consecutive dots leave an empty segment between the two
    separators. *)
Theorem get_as_path_replaces_every_dot (g : Group.t) :
  (String.length (Group.get_as_path g) = String.length (Group.id g)
   /\ forall i,
        String.get i (Group.get_as_path g)
        = (fun c => if Ascii.eqb c "." then "/"%char else c)
            <$> String.get i (Group.id g))
  /\ (Group.id g = "com.example.foo" ->
      Group.get_as_path g = "com/example/foo")
  /\ ((forall i, String.get i (Group.id g) <> Some "."%char) ->
      Group.get_as_path g = Group.id g)
  /\ (forall a b,
        Group.id g = a +:+ ".." +:+ b ->
        Group.get_as_path g
        = str_replace "." "/" a +:+ "//" +:+ str_replace "." "/" b
        /\ str_split "/" (Group.get_as_path g)
           = str_split "/" (str_replace "." "/" a)
             ++ "" :: str_split "/" (str_replace "." "/" b)).
Proof.
  unfold Group.get_as_path. repeat split.
  - apply str_replace_length.
  - apply str_replace_get.
  - by intros ->.
  - apply str_replace_absent.
  - rewrite H. by rewrite str_replace_app.
  - rewrite H, str_replace_app. simpl.
    change (String "/" (String "/" (str_replace "." "/" b)))
      with (String "/" ("" +:+ String "/" (str_replace "." "/" b))).
    by rewrite !str_split_sep.
Qed.

Lemma get_as_path_replaces_every_dot_witness :
  Group.get_as_path (Group.init "com.example.foo" "/p") = "com/example/foo"
  /\ Group.get_as_path (Group.init "commons" "/p") = "commons"
  /\ str_split "/" (Group.get_as_path (Group.init "a..b" "/p"))
     = ["a"; ""; "b"].
Proof.
  split; [|split].
  - apply (get_as_path_replaces_every_dot (Group.init "com.example.foo" "/p")).
    reflexivity.
  - apply (get_as_path_replaces_every_dot (Group.init "commons" "/p")).
    intros i. do 8 (destruct i as [|i]; [discriminate|]). discriminate.
  - apply (get_as_path_replaces_every_dot (Group.init "a..b" "/p") : _ /\ _ /\ _ /\ _)
      with (a := "a") (b := "b").
    reflexivity.
Defined.

(** C9: two entries are equal exactly when their file names and their
    containing directories are equal, equal entries have the same hash, and
    the full path is the containing directory, a slash and the file name. *)
Theorem entry_eq_hash_full_path (py_hash : string * string -> Z)
    (a b : ArtifactEntry.t) :
  (ArtifactEntry.__eq__ a b = true
   <-> ArtifactEntry.file_name a = ArtifactEntry.file_name b
       /\ ArtifactEntry.location a = ArtifactEntry.location b)
  /\ (ArtifactEntry.__eq__ a b = true <-> a = b)
  /\ (ArtifactEntry.__ne__ a b = negb (ArtifactEntry.__eq__ a b))
  /\ (ArtifactEntry.__eq__ a b = true ->
      ArtifactEntry.__hash__ py_hash a = ArtifactEntry.__hash__ py_hash b)
  /\ ArtifactEntry.get_full_path a
     = ArtifactEntry.location a +:+ "/" +:+ ArtifactEntry.file_name a.
Proof.
  assert (Hiff : ArtifactEntry.__eq__ a b = true
                 <-> ArtifactEntry.file_name a = ArtifactEntry.file_name b
                     /\ ArtifactEntry.location a = ArtifactEntry.location b).
  { unfold ArtifactEntry.__eq__.
    rewrite andb_true_iff, !String.eqb_eq. tauto. }
  split; [exact Hiff|]. split; [|split; [done|split; [|done]]].
  - rewrite Hiff. destruct a, b; simpl. split.
    + by intros [-> ->].
    + intros H. by inversion H.
  - intros H. apply Hiff in H as [Hf Hl].
    unfold ArtifactEntry.__hash__. by rewrite Hf, Hl.
Qed.

Lemma entry_eq_hash_full_path_witness :
  ArtifactEntry.__hash__ (fun p => Z.of_nat (String.length (fst p)))
    (ArtifactEntry.mk "bar.jar" "/c/aaaa")
  = ArtifactEntry.__hash__ (fun p => Z.of_nat (String.length (fst p)))
      (ArtifactEntry.mk "bar.jar" "/c/aaaa")
  /\ ArtifactEntry.__eq__ (ArtifactEntry.mk "bar.jar" "/c/aaaa")
       (ArtifactEntry.mk "bar.jar" "/c/bbbb") = false.
Proof.
  split.
  - apply (entry_eq_hash_full_path _ (ArtifactEntry.mk "bar.jar" "/c/aaaa")
             (ArtifactEntry.mk "bar.jar" "/c/aaaa")).
    reflexivity.
  - reflexivity.
Defined.

(** ** Groups and the repository *)

Lemma contains_spec (l : list Artifact.t) (a : Artifact.t) :
  Group.contains l a = true
  <-> exists x, In x l /\ Artifact.oid x = Artifact.oid a.
Proof.
  unfold Group.contains, Artifact.same_object. rewrite existsb_exists.
  split; intros (x & Hx & E); exists x; split; try done;
    by apply Nat.eqb_eq.
Qed.

Lemma contains_app (l1 l2 : list Artifact.t) (a : Artifact.t) :
  Group.contains (l1 ++ l2) a = Group.contains l1 a || Group.contains l2 a.
Proof. apply existsb_app. Qed.

(** C8: a group looks an artifact up by object identity only.  Two distinct
    [Artifact] objects with the same identifier are both kept, each with its
    own versions, and adding one object twice keeps it once. *)
Theorem add_artifact_dedups_by_identity (g : Group.t) (a b : Artifact.t) :
  (Group.contains (Group.artifacts g) a = true
   <-> exists x, In x (Group.artifacts g) /\ Artifact.oid x = Artifact.oid a)
  /\ (Group.contains (Group.artifacts g) a = false ->
      Group.contains (Group.artifacts g) b = false ->
      Artifact.oid a <> Artifact.oid b ->
      Artifact.id a = Artifact.id b ->
      Group.artifacts (Group.add_artifact (Group.add_artifact g a) b)
      = Group.artifacts g ++ [a; b])
  /\ Group.add_artifact (Group.add_artifact g a) a = Group.add_artifact g a.
Proof.
  split; [apply contains_spec|]. split.
  - intros Ha Hb Hne _. unfold Group.add_artifact at 2. rewrite Ha. simpl.
    unfold Group.add_artifact. simpl.
    rewrite contains_app, Hb. simpl. unfold Artifact.same_object.
    destruct (Nat.eqb_spec (Artifact.oid a) (Artifact.oid b)); [done|].
    simpl. by rewrite <- app_assoc.
  - unfold Group.add_artifact at 2.
    destruct (Group.contains (Group.artifacts g) a) eqn:Ha; simpl.
    + unfold Group.add_artifact. by rewrite Ha.
    + unfold Group.add_artifact. simpl. rewrite contains_app, Ha. simpl.
      unfold Artifact.same_object. by rewrite Nat.eqb_refl.
Qed.

Lemma add_artifact_dedups_by_identity_witness :
  Group.artifacts
    (Group.add_artifact
       (Group.add_artifact (Group.init "org.foo" "/p") (Artifact.init 0 "bar"))
       (Artifact.init 1 "bar"))
  = [Artifact.init 0 "bar"; Artifact.init 1 "bar"].
Proof.
  apply (add_artifact_dedups_by_identity (Group.init "org.foo" "/p")
           (Artifact.init 0 "bar") (Artifact.init 1 "bar"));
    [reflexivity | reflexivity | simpl; lia | reflexivity].
Defined.

Lemma add_group_mem_raises (repo : ArtifactRepo.t) (g : Group.t) :
  Dict.mem (Group.id g) (ArtifactRepo.groups repo) = true ->
  ArtifactRepo.add_group repo g = Raise AttributeError.
Proof.
  intros Hmem. unfold ArtifactRepo.add_group. rewrite Hmem.
  apply dict_mem_get in Hmem as [existing Hget].
  unfold Dict.item. by rewrite Hget.
Qed.

(** C1: inserting a group whose identifier the repository already has does
    not merge anything: [Group.merge] raises AttributeError on its first
    line, and [add_group] raises with it. *)
Theorem add_group_existing_id_raises (repo : ArtifactRepo.t) (g : Group.t) :
  Dict.mem (Group.id g) (ArtifactRepo.groups repo) = true ->
  ArtifactRepo.add_group repo g = Raise AttributeError.
Proof. apply add_group_mem_raises. Qed.

Lemma add_group_existing_id_raises_witness :
  ArtifactRepo.add_group
    {| ArtifactRepo.groups :=
         [("org.foo", Group.init "org.foo" "/cache/caches/modules-2/files-2.1/org.foo")] |}
    (Group.init "org.foo" "/cache/caches/modules-3/files-3.0/org.foo")
  = Raise AttributeError.
Proof. apply add_group_existing_id_raises. reflexivity. Defined.

(** A cache that stores one group under two module roots cannot be
    scanned. *)
Example scan_two_roots_raises :
  GradleCache.load [] cache_two_roots "/cache" = Raise AttributeError.
Proof. vm_compute. reflexivity. Qed.

(** ** Entries of a version *)

Section AppendEntries.
Variable version : string.

Lemma append_entry_present (a : Artifact.t) (e : ArtifactEntry.t)
    (l : list ArtifactEntry.t) :
  Dict.get version (Artifact.versioned_entries a) = Some l ->
  exists a',
    Artifact.append_entry a version e = Ok a'
    /\ Dict.get version (Artifact.versioned_entries a') = Some (l ++ [e]).
Proof.
  intros Hget. unfold Artifact.append_entry, Dict.mem, Dict.item.
  rewrite Hget. simpl. rewrite Hget. simpl.
  eexists. split; [reflexivity|]. simpl. apply dict_get_set_eq.
Qed.

Lemma append_entry_fresh (a : Artifact.t) (e : ArtifactEntry.t) :
  Dict.mem version (Artifact.versioned_entries a) = false ->
  exists a',
    Artifact.append_entry a version e = Ok a'
    /\ Dict.get version (Artifact.versioned_entries a') = Some [e; e].
Proof.
  intros Hmem. unfold Artifact.append_entry, Dict.item.
  rewrite Hmem. simpl. rewrite dict_get_set_eq. simpl.
  eexists. split; [reflexivity|]. simpl. apply dict_get_set_eq.
Qed.

Lemma append_all_cons (a : Artifact.t) (e : ArtifactEntry.t)
    (es : list ArtifactEntry.t) :
  append_all version a (e :: es)
  = rbind (Artifact.append_entry a version e) (fun a' => append_all version a' es).
Proof. reflexivity. Qed.

Lemma append_all_present (es : list ArtifactEntry.t) :
  forall (a : Artifact.t) (l : list ArtifactEntry.t),
    Dict.get version (Artifact.versioned_entries a) = Some l ->
    exists a',
      append_all version a es = Ok a'
      /\ Dict.get version (Artifact.versioned_entries a') = Some (l ++ es).
Proof.
  induction es as [|e es IH]; intros a l Hget.
  - exists a. by rewrite app_nil_r.
  - rewrite append_all_cons.
    destruct (append_entry_present a e l Hget) as (a1 & -> & Hget1).
    destruct (IH a1 _ Hget1) as (a' & Hrun & Hget').
    exists a'. split; [done|]. by rewrite Hget', <- app_assoc.
Qed.

Lemma append_all_fresh (a : Artifact.t) (e : ArtifactEntry.t)
    (es : list ArtifactEntry.t) :
  Dict.mem version (Artifact.versioned_entries a) = false ->
  exists a',
    append_all version a (e :: es) = Ok a'
    /\ Dict.get version (Artifact.versioned_entries a') = Some (e :: e :: es).
Proof.
  intros Hmem. rewrite append_all_cons.
  destruct (append_entry_fresh a e Hmem) as (a1 & -> & Hget1).
  apply (append_all_present es a1 _ Hget1).
Qed.

Lemma append_all_app (a : Artifact.t) (es1 es2 : list ArtifactEntry.t) :
  append_all version a (es1 ++ es2)
  = rbind (append_all version a es1) (fun a' => append_all version a' es2).
Proof. apply rfold_app. Qed.
End AppendEntries.

(** The two nested loops of the scanner append the discovered entries one
    by one. *)
Lemma load_entries_appends_discovered (cwd : list string) (m : fs)
    (vp version : string) (hashes : list string) :
  forall (found all : list ArtifactEntry.t),
    rfold
      (fun found h =>
         do files <- os.listdir cwd m (os.path_join vp h) ;
         Ok (found
             ++ map (fun f => ArtifactEntry.mk f (os.path_join vp h)) files))
      hashes found = Ok all ->
    exists rest,
      all = found ++ rest
      /\ forall a : Artifact.t,
           rfold
             (fun a h =>
                do files <- os.listdir cwd m (os.path_join vp h) ;
                rfold
                  (fun a f =>
                     Artifact.append_entry a version
                       (ArtifactEntry.mk f (os.path_join vp h)))
                  files a)
             hashes a
           = append_all version a rest.
Proof.
  induction hashes as [|h hashes IH]; intros found all Hall; cbn [rfold] in *.
  - exists []. injection Hall as <-. by rewrite app_nil_r.
  - destruct (os.listdir cwd m (os.path_join vp h)) as [files|e];
      cbn [rbind] in *; [|discriminate].
    destruct (IH _ _ Hall) as (rest & -> & Hrun).
    exists (map (fun f => ArtifactEntry.mk f (os.path_join vp h)) files
            ++ rest).
    split; [by rewrite app_assoc|].
    intros a. rewrite append_all_app. unfold append_all at 1.
    rewrite rfold_map.
    destruct (rfold _ files a) as [a1|e]; cbn [rbind]; [apply Hrun | done].
Qed.

(** C2: the first entry found for a version is stored twice.  When the
    artifact does not have the version yet and its content-hash directories
    hold the entries [e :: es], the scan leaves [e :: e :: es] in the
    version's list: one entry more than there are files. *)
Theorem first_entry_of_version_stored_twice (cwd : list string) (m : fs)
    (a : Artifact.t) (artifact_path version : string)
    (e : ArtifactEntry.t) (es : list ArtifactEntry.t) :
  Dict.mem version (Artifact.versioned_entries a) = false ->
  discovered_entries cwd m artifact_path version = Ok (e :: es) ->
  exists a',
    GradleCache.load_artifact_entries_by_version cwd m a artifact_path version
    = Ok a'
    /\ Artifact.get_entries a' version = Ok (e :: e :: es)
    /\ (forall l, Artifact.get_entries a' version = Ok l ->
                  length l = S (length (e :: es))).
Proof.
  intros Hmem Hdisc.
  unfold discovered_entries in Hdisc.
  unfold GradleCache.load_artifact_entries_by_version.
  destruct (os.listdir cwd m (os.path_join artifact_path version))
    as [hashes|err]; cbn [rbind] in *; [|discriminate].
  destruct (load_entries_appends_discovered cwd m _ version hashes _ _ Hdisc)
    as (rest & Hall & Hrun).
  simpl in Hall. subst rest. rewrite Hrun.
  destruct (append_all_fresh version a e es Hmem) as (a' & -> & Hget).
  exists a'. split; [done|].
  unfold Artifact.get_entries, Dict.item. rewrite Hget.
  split; [done|]. by intros l [= <-].
Qed.

Lemma first_entry_of_version_stored_twice_witness :
  exists a',
    GradleCache.load_artifact_entries_by_version [] cache_one_jar
      (Artifact.init 0 "bar") "/cache/caches/modules-2/files-2.1/org.foo/bar"
      "1.0.0" = Ok a'
    /\ Artifact.get_entries a' "1.0.0"
       = Ok [ArtifactEntry.mk "bar-1.0.0.jar"
               "/cache/caches/modules-2/files-2.1/org.foo/bar/1.0.0/abcd1234";
             ArtifactEntry.mk "bar-1.0.0.jar"
               "/cache/caches/modules-2/files-2.1/org.foo/bar/1.0.0/abcd1234"]
    /\ (forall l, Artifact.get_entries a' "1.0.0" = Ok l -> length l = 2).
Proof.
  apply (first_entry_of_version_stored_twice [] cache_one_jar
           (Artifact.init 0 "bar")
           "/cache/caches/modules-2/files-2.1/org.foo/bar" "1.0.0"
           (ArtifactEntry.mk "bar-1.0.0.jar"
              "/cache/caches/modules-2/files-2.1/org.foo/bar/1.0.0/abcd1234")
           []).
  - reflexivity.
  - vm_compute. reflexivity.
Defined.

(** ** The filesystem commands *)

Lemma grown_refl (m : fs) (p : list string) : grown m m p.
Proof. by left. Qed.

Lemma grown_trans (m1 m2 m3 : fs) (p : list string) :
  grown m1 m2 p -> grown m2 m3 p -> grown m1 m3 p.
Proof.
  unfold grown. intros [E1|[N1 D1]] [E2|[N2 D2]].
  - left. congruence.
  - right. split; congruence.
  - right. split; congruence.
  - congruence.
Qed.

Lemma grown_insert_dir (m : fs) (q p : list string) :
  m !! q = None -> grown m (<[q := Dir]> m) p.
Proof.
  intros Hq. destruct (decide (q = p)) as [->|Hne].
  - right. by rewrite lookup_insert_eq.
  - left. by rewrite lookup_insert_ne.
Qed.

Lemma grown_some (m m' : fs) (p : list string) (x : node) :
  grown m m' p -> m !! p = Some x -> m' !! p = Some x.
Proof. intros [E|[N _]] Hx; congruence. Qed.

Lemma grown_file (m m' : fs) (p : list string) (c : list Byte.byte) :
  grown m m' p -> m' !! p = Some (File c) -> m !! p = Some (File c).
Proof. intros [E|[_ D]] Hx; congruence. Qed.

(** A command that ends well, with the filesystem it leaves. *)
Lemma io_ok_snd {A} (r : result A * fs) (a : A) :
  fst r = Ok a -> r = (Ok a, snd r).
Proof. destruct r as [x m]. simpl. by intros ->. Qed.

Section Commands.
Variable cwd : list string.

Lemma mkdir_chain_grown (todo : list string) :
  forall (done : list string) (m : fs) (p : list string),
    grown m (snd (os.mkdir_chain done todo m)) p.
Proof.
  induction todo as [|c rest IH]; intros done m p; simpl.
  - apply grown_refl.
  - destruct rest as [|c' rest'].
    + destruct (m !! (done ++ [c])) eqn:E; simpl.
      * apply grown_refl.
      * by apply grown_insert_dir.
    + destruct (m !! (done ++ [c])) as [[?|]|] eqn:E.
      * apply grown_refl.
      * apply IH.
      * eapply grown_trans; [by apply grown_insert_dir | apply IH].
Qed.

Lemma mkdir_chain_ok (todo : list string) :
  forall (done : list string) (m m' : fs),
    os.mkdir_chain done todo m = (Ok tt, m') ->
    m' !! (done ++ todo) = Some Dir.
Proof.
  induction todo as [|c rest IH]; intros done m m' H; simpl in H.
  - discriminate.
  - destruct rest as [|c' rest'].
    + destruct (m !! (done ++ [c])) eqn:E; [discriminate|].
      injection H as <-. apply lookup_insert_eq.
    + replace (done ++ c :: c' :: rest') with ((done ++ [c]) ++ c' :: rest')
        by (by rewrite <- app_assoc).
      destruct (m !! (done ++ [c])) as [[?|]|] eqn:E;
        [discriminate | by eapply IH | by eapply IH].
Qed.

Lemma makedirs_ok (p : string) (m m' : fs) :
  os.makedirs cwd p m = (Ok tt, m') ->
  os.lookup_path cwd m' p = Some Dir /\ forall q, grown m m' q.
Proof.
  unfold os.makedirs, os.lookup_path. intros H.
  destruct (os.resolve cwd p) as [rp|]; [|discriminate]. split.
  - by apply (mkdir_chain_ok rp [] m m').
  - intros q. pose proof (mkdir_chain_grown rp [] m q) as G.
    by rewrite H in G.
Qed.

(** The guard the writer puts before [os.makedirs]. *)
Lemma ensure_dir_ok (p : string) (m m' : fs) :
  (if negb (os.path_exists cwd m p) then os.makedirs cwd p m
   else io_ret tt m) = (Ok tt, m') ->
  os.path_exists cwd m' p = true /\ forall q, grown m m' q.
Proof.
  destruct (os.path_exists cwd m p) eqn:E; simpl; intros H.
  - injection H as <-. split; [done | intros q; apply grown_refl].
  - apply makedirs_ok in H as [Hd Hg]. split; [|done].
    unfold os.path_exists. by rewrite Hd.
Qed.

Lemma copyfile_ok (src dst : string) (m m' : fs) :
  shutil.copyfile cwd src dst m = (Ok tt, m') ->
  exists rs rd c,
    os.resolve cwd src = Some rs /\ os.resolve cwd dst = Some rd
    /\ rs <> rd /\ m !! rs = Some (File c) /\ m !! rd <> Some Dir
    /\ m !! removelast rd = Some Dir /\ m' = <[rd := File c]> m.
Proof.
  unfold shutil.copyfile. intros H.
  destruct (os.resolve cwd src) as [rs|]; [|discriminate].
  destruct (os.resolve cwd dst) as [rd|]; [|discriminate].
  destruct (m !! rs) as [[c|]|] eqn:Hs.
  - destruct (bool_decide (rs = rd)) eqn:Heq.
    { rewrite bool_decide_eq_true_2 in H by by eexists. discriminate. }
    apply bool_decide_eq_false in Heq. simpl in H.
    exists rs, rd, c.
    destruct (m !! rd) as [[?|]|] eqn:Hd; try discriminate;
      destruct (m !! removelast rd) as [[?|]|] eqn:Hp; try discriminate;
      injection H as <-; repeat split; done.
  - destruct (bool_decide (rs = rd) && bool_decide (is_Some (Some Dir)));
      discriminate.
  - destruct (bool_decide (rs = rd) && bool_decide (is_Some None));
      discriminate.
Qed.

Lemma path_exists_grown (p : string) (m m' : fs) :
  (forall q, is_Some (m !! q) -> is_Some (m' !! q)) ->
  os.path_exists cwd m p = true -> os.path_exists cwd m' p = true.
Proof.
  unfold os.path_exists, os.lookup_path. intros Hg.
  destruct (os.resolve cwd p) as [rp|]; [|done].
  destruct (m !! rp) eqn:E; [|done]. intros _.
  destruct (Hg rp) as [x ->]; [by eexists | done].
Qed.

Lemma write_entry_ok (vp : string) (e : ArtifactEntry.t) (m m' : fs) :
  MavenRepoWriter.write_entry cwd vp e m = (Ok tt, m') ->
  exists rs rd c,
    copy_src cwd (vp, e) = Some rs /\ copy_dst cwd (vp, e) = Some rd
    /\ copied rs rd c m m' /\ os.path_exists cwd m' vp = true.
Proof.
  unfold MavenRepoWriter.write_entry, io_bind. intros H.
  destruct (if negb (os.path_exists cwd m vp) then os.makedirs cwd vp m
            else io_ret tt m) as [[[]|err] m1] eqn:Hens; [|discriminate].
  apply ensure_dir_ok in Hens as [Hex Hg].
  apply copyfile_ok in H
    as (rs & rd & c & Hrs & Hrd & Hne & Hs & Hd & Hp & ->).
  exists rs, rd, c. unfold copy_src, copy_dst. simpl.
  split; [done|]. split; [done|]. split.
  - split.
    + done.
    + by apply (grown_file m m1).
    + intros Hdir. apply Hd. by apply (grown_some m m1).
    + apply lookup_insert_eq.
    + rewrite lookup_insert_ne; [done|]. intros E. rewrite <- E in Hp.
      congruence.
    + intros p Hp'. unfold grown. rewrite lookup_insert_ne by done.
      apply Hg.
  - apply (path_exists_grown vp m1); [|done].
    intros q [x Hx]. destruct (decide (rd = q)) as [->|Hq].
    + rewrite lookup_insert_eq. by eexists.
    + rewrite lookup_insert_ne by done. by eexists.
Qed.
End Commands.

(** ** Running a plan of copies *)

Section Plans.
Variable cwd : list string.

Lemma io_for_cons {A} (body : A -> io unit) (x : A) (l : list A) (m : fs) :
  io_for body (x :: l) m
  = match body x m with
    | (Ok _, m1) => io_for body l m1
    | (Raise e, m1) => (Raise e, m1)
    end.
Proof. reflexivity. Qed.

Lemma io_for_app {A} (body : A -> io unit) (l1 l2 : list A) (m : fs) :
  io_for body (l1 ++ l2) m
  = match io_for body l1 m with
    | (Ok _, m1) => io_for body l2 m1
    | (Raise e, m1) => (Raise e, m1)
    end.
Proof.
  revert m. induction l1 as [|x l1 IH]; intros m; [done|].
  rewrite <- app_comm_cons, !io_for_cons.
  destruct (body x m) as [[[]|e] m1]; [apply IH | done].
Qed.

Lemma io_for_map {A B} (body : B -> io unit) (f : A -> B) (l : list A)
    (m : fs) :
  io_for body (map f l) m = io_for (fun x => body (f x)) l m.
Proof.
  revert m. induction l as [|x l IH]; intros m; [done|].
  simpl map. rewrite !io_for_cons.
  destruct (body (f x) m) as [[[]|e] m1]; [apply IH | done].
Qed.

Lemma run_plan_cons_ok (op : string * ArtifactEntry.t)
    (plan : list (string * ArtifactEntry.t)) (m m' : fs) :
  run_plan cwd (op :: plan) m = (Ok tt, m') ->
  exists m1,
    MavenRepoWriter.write_entry cwd (fst op) (snd op) m = (Ok tt, m1)
    /\ run_plan cwd plan m1 = (Ok tt, m').
Proof.
  unfold run_plan. rewrite io_for_cons.
  destruct (MavenRepoWriter.write_entry cwd (fst op) (snd op) m)
    as [[[]|e] m1]; [by exists m1 | discriminate].
Qed.

Lemma run_plan_cons_copied (op : string * ArtifactEntry.t)
    (plan : list (string * ArtifactEntry.t)) (m m' : fs) :
  run_plan cwd (op :: plan) m = (Ok tt, m') ->
  exists m1 rs rd c,
    copy_src cwd op = Some rs /\ copy_dst cwd op = Some rd
    /\ copied rs rd c m m1 /\ os.path_exists cwd m1 (fst op) = true
    /\ run_plan cwd plan m1 = (Ok tt, m').
Proof.
  intros H. apply run_plan_cons_ok in H as (m1 & Hstep & Hrun).
  apply write_entry_ok in Hstep as (rs & rd & c & Hs & Hd & Hc & Hex).
  destruct op as [vp e]. by exists m1, rs, rd, c.
Qed.

Lemma copied_dir (rs rd p : list string) (c : list Byte.byte) (m m' : fs) :
  copied rs rd c m m' -> m !! p = Some Dir -> m' !! p = Some Dir.
Proof.
  intros Hc Hp. apply (grown_some m); [|done].
  apply (copied_frame _ _ _ _ _ Hc). intros ->.
  by apply (copied_dst_old _ _ _ _ _ Hc).
Qed.

Lemma copied_file (rs rd p : list string) (c c0 : list Byte.byte)
    (m m' : fs) :
  copied rs rd c m m' -> m !! p = Some (File c0) ->
  exists c', m' !! p = Some (File c').
Proof.
  intros Hc Hp. destruct (decide (p = rd)) as [->|Hne].
  - exists c. apply (copied_dst _ _ _ _ _ Hc).
  - exists c0. apply (grown_some m); [|done].
    by apply (copied_frame _ _ _ _ _ Hc).
Qed.

(** Outside its targets a run only makes directories. *)
Lemma run_plan_frame (plan : list (string * ArtifactEntry.t)) :
  forall (m m' : fs) (p : list string),
    run_plan cwd plan m = (Ok tt, m') ->
    (forall op, In op plan -> copy_dst cwd op <> Some p) ->
    grown m m' p.
Proof.
  induction plan as [|op plan IH]; intros m m' p Hrun Hp.
  - injection Hrun as <-. apply grown_refl.
  - apply run_plan_cons_copied in Hrun
      as (m1 & rs & rd & c & Hs & Hd & Hc & _ & Hrun).
    apply (grown_trans m m1).
    + apply (copied_frame _ _ _ _ _ Hc). intros ->.
      by apply (Hp op); [left|].
    + apply IH; [done|]. intros op' Hin. apply Hp. by right.
Qed.

Lemma run_plan_dir (plan : list (string * ArtifactEntry.t)) :
  forall (m m' : fs) (p : list string),
    run_plan cwd plan m = (Ok tt, m') ->
    m !! p = Some Dir -> m' !! p = Some Dir.
Proof.
  induction plan as [|op plan IH]; intros m m' p Hrun Hp.
  - by injection Hrun as <-.
  - apply run_plan_cons_copied in Hrun
      as (m1 & rs & rd & c & Hs & Hd & Hc & _ & Hrun).
    apply (IH m1); [done|]. by apply (copied_dir _ _ _ _ _ _ Hc).
Qed.

Lemma run_plan_file (plan : list (string * ArtifactEntry.t)) :
  forall (m m' : fs) (p : list string) (c : list Byte.byte),
    run_plan cwd plan m = (Ok tt, m') ->
    m !! p = Some (File c) -> exists c', m' !! p = Some (File c').
Proof.
  induction plan as [|op plan IH]; intros m m' p c0 Hrun Hp.
  - injection Hrun as <-. by exists c0.
  - apply run_plan_cons_copied in Hrun
      as (m1 & rs & rd & c & Hs & Hd & Hc & _ & Hrun).
    destruct (copied_file _ _ _ _ _ _ _ Hc Hp) as [c1 Hp1].
    by apply (IH m1 m' p c1).
Qed.

Lemma run_plan_some (plan : list (string * ArtifactEntry.t))
    (m m' : fs) (p : list string) :
  run_plan cwd plan m = (Ok tt, m') ->
  is_Some (m !! p) -> is_Some (m' !! p).
Proof.
  intros Hrun [[c|] Hp].
  - destruct (run_plan_file plan m m' p c Hrun Hp) as [c' ->]. by eexists.
  - rewrite (run_plan_dir plan m m' p Hrun Hp). by eexists.
Qed.

(** After a successful run the plan is settled. *)
Lemma run_plan_settles (plan : list (string * ArtifactEntry.t)) :
  forall m m' : fs,
    run_plan cwd plan m = (Ok tt, m') -> settled cwd plan m'.
Proof.
  induction plan as [|op plan IH]; intros m m' Hrun op' Hin; [done|].
  apply run_plan_cons_copied in Hrun
    as (m1 & rs & rd & c & Hs & Hd & Hc & Hex & Hrun).
  destruct Hin as [<-|Hin]; [|by apply (IH m1 m')].
  assert (Hs1 : m1 !! rs = Some (File c)).
  { apply (grown_some m).
    - apply (copied_frame _ _ _ _ _ Hc), (copied_ne _ _ _ _ _ Hc).
    - apply (copied_src _ _ _ _ _ Hc). }
  destruct (run_plan_file plan m1 m' rs c Hrun Hs1) as [cs Hs'].
  destruct (run_plan_file plan m1 m' rd c Hrun (copied_dst _ _ _ _ _ Hc))
    as [cd Hd'].
  exists rs, rd, cs, cd. repeat split; try done.
  - apply (copied_ne _ _ _ _ _ Hc).
  - apply (run_plan_dir plan m1 m'); [done|].
    apply (copied_parent _ _ _ _ _ Hc).
  - apply (path_exists_grown cwd (fst op) m1); [|done].
    intros q. apply (run_plan_some plan m1 m' q Hrun).
Qed.

Lemma dst_in_plan_dec (plan : list (string * ArtifactEntry.t))
    (rd : list string) :
  (exists op, In op plan /\ copy_dst cwd op = Some rd)
  \/ (forall op, In op plan -> copy_dst cwd op <> Some rd).
Proof.
  induction plan as [|op plan [(op' & Hin & Hd)|Hno]].
  - by right.
  - left. exists op'. split; [by right | done].
  - destruct (decide (copy_dst cwd op = Some rd)) as [E|Hne].
    + left. exists op. split; [by left | done].
    + right. intros op' [<-|Hin]; [done | by apply Hno].
Qed.

(** A copy survives the rest of the run when nothing else is written to its
    target and nothing at all to its source. *)
Lemma run_plan_copy (plan : list (string * ArtifactEntry.t)) :
  forall (m m' : fs) (op : string * ArtifactEntry.t),
    run_plan cwd plan m = (Ok tt, m') ->
    In op plan ->
    (forall op', In op' plan -> copy_dst cwd op' <> copy_src cwd op) ->
    (forall op', In op' plan -> copy_dst cwd op' = copy_dst cwd op ->
                 copy_src cwd op' = copy_src cwd op) ->
    exists rs rd c,
      copy_src cwd op = Some rs /\ copy_dst cwd op = Some rd
      /\ m !! rs = Some (File c) /\ m' !! rs = Some (File c)
      /\ m' !! rd = Some (File c).
Proof.
  induction plan as [|op0 plan IH]; intros m m' op Hrun Hin Hsrc Hdst; [done|].
  apply run_plan_cons_copied in Hrun
    as (m1 & rs0 & rd0 & c0 & Hs0 & Hd0 & Hc & _ & Hrun).
  assert (Hplan_src : forall op', In op' plan ->
                                  copy_dst cwd op' <> copy_src cwd op)
    by (intros op' H'; apply Hsrc; by right).
  assert (Hplan_dst : forall op', In op' plan ->
                                  copy_dst cwd op' = copy_dst cwd op ->
                                  copy_src cwd op' = copy_src cwd op)
    by (intros op' H'; apply Hdst; by right).
  assert (Hlater : In op plan ->
            exists rs rd c,
              copy_src cwd op = Some rs /\ copy_dst cwd op = Some rd
              /\ m !! rs = Some (File c) /\ m' !! rs = Some (File c)
              /\ m' !! rd = Some (File c)).
  { intros Hin'.
    destruct (IH m1 m' op Hrun Hin' Hplan_src Hplan_dst)
      as (rs & rd & c & Hs & Hd & Hm1 & Hm' & Hrd).
    exists rs, rd, c. repeat split; try done.
    apply (grown_file m m1); [|done].
    apply (copied_frame _ _ _ _ _ Hc). intros ->.
    apply (Hsrc op0); [by left | congruence]. }
  destruct Hin as [->|Hin]; [|by apply Hlater].
  destruct (dst_in_plan_dec plan rd0) as [(op' & Hin' & Hd')|Hno].
  - (* the target is written again, from the same source *)
    assert (Hs' : copy_src cwd op' = copy_src cwd op)
      by (apply Hdst; [by right | congruence]).
    destruct (IH m1 m' op' Hrun Hin') as (rs & rd & c & Hs & Hd & Hm1 & Hm' & Hrd).
    + intros op'' H''. rewrite Hs'. by apply Hplan_src.
    + intros op'' H'' E. rewrite Hs'. apply Hplan_dst; [done | congruence].
    + assert (rs = rs0) as -> by congruence.
      assert (rd = rd0) as -> by congruence.
      exists rs0, rd0, c. repeat split; try done.
      apply (grown_file m m1); [|done].
      apply (copied_frame _ _ _ _ _ Hc), (copied_ne _ _ _ _ _ Hc).
  - (* this copy is the last one to the target *)
    exists rs0, rd0, c0. split; [done|]. split; [done|].
    split; [apply (copied_src _ _ _ _ _ Hc)|].
    assert (Hs1 : m1 !! rs0 = Some (File c0)).
    { apply (grown_some m).
      - apply (copied_frame _ _ _ _ _ Hc), (copied_ne _ _ _ _ _ Hc).
      - apply (copied_src _ _ _ _ _ Hc). }
    split.
    + apply (grown_some m1); [|done].
      apply (run_plan_frame plan m1 m'); [done|].
      intros op' H'. rewrite <- Hs0. by apply Hplan_src.
    + apply (grown_some m1); [|apply (copied_dst _ _ _ _ _ Hc)].
      by apply (run_plan_frame plan m1 m').
Qed.

(** *** Running a settled plan again *)

Lemma settled_step (plan : list (string * ArtifactEntry.t)) (t : fs)
    (op : string * ArtifactEntry.t) :
  settled cwd plan t -> In op plan ->
  exists rs rd c,
    copy_src cwd op = Some rs /\ copy_dst cwd op = Some rd
    /\ t !! rs = Some (File c)
    /\ MavenRepoWriter.write_entry cwd (fst op) (snd op) t
       = (Ok tt, <[rd := File c]> t)
    /\ replay_copy cwd t op = <[rd := File c]> t
    /\ settled cwd plan (<[rd := File c]> t).
Proof.
  intros Hset Hin.
  destruct (Hset op Hin) as (rs & rd & c & cd & Hs & Hd & Hne & Hts & Htd & Hp & Hex).
  exists rs, rd, c. split; [done|]. split; [done|]. split; [done|].
  split; [|split].
  - unfold MavenRepoWriter.write_entry, io_bind. rewrite Hex. simpl.
    unfold shutil.copyfile. unfold copy_src, copy_dst in Hs, Hd.
    rewrite Hs, Hd. rewrite (bool_decide_eq_false_2 _ Hne). simpl.
    by rewrite Hts, Htd, Hp.
  - unfold replay_copy. by rewrite Hs, Hd, Hts.
  - intros op' Hin'.
    destruct (Hset op' Hin')
      as (rs' & rd' & cs' & cd' & Hs' & Hd' & Hne' & Hts' & Htd' & Hp' & Hex').
    assert (Hfile : forall q cq, t !! q = Some (File cq) ->
                      exists cq', <[rd := File c]> t !! q = Some (File cq')).
    { intros q cq Hq. destruct (decide (rd = q)) as [->|Hq'].
      - exists c. apply lookup_insert_eq.
      - exists cq. by rewrite lookup_insert_ne. }
    destruct (Hfile rs' cs' Hts') as [cs1 Hs1].
    destruct (Hfile rd' cd' Htd') as [cd1 Hd1].
    exists rs', rd', cs1, cd1. repeat split; try done.
    + rewrite lookup_insert_ne; [done|]. intros E. congruence.
    + apply (path_exists_grown cwd (fst op') t); [|done].
      intros q [x Hx]. destruct (decide (rd = q)) as [->|Hq'].
      * rewrite lookup_insert_eq. by eexists.
      * rewrite lookup_insert_ne by done. by eexists.
Qed.

Lemma settled_run (plan sub : list (string * ArtifactEntry.t)) :
  forall t : fs,
    settled cwd plan t -> (forall op, In op sub -> In op plan) ->
    run_plan cwd sub t = (Ok tt, replay cwd sub t).
Proof.
  induction sub as [|op sub IH]; intros t Hset Hsub; [done|].
  destruct (settled_step plan t op Hset) as (rs & rd & c & _ & _ & _ & Hw & Hr & Hset');
    [apply Hsub; by left|].
  unfold run_plan. rewrite io_for_cons, Hw.
  unfold replay. simpl fold_left. rewrite Hr.
  apply IH; [done|]. intros op' Hin. apply Hsub. by right.
Qed.

Lemma replay_frame (plan : list (string * ArtifactEntry.t)) :
  forall (t : fs) (p : list string),
    (forall op, In op plan -> copy_dst cwd op <> Some p) ->
    replay cwd plan t !! p = t !! p.
Proof.
  induction plan as [|op plan IH]; intros t p Hp; [done|].
  unfold replay. simpl fold_left. fold (replay cwd plan (replay_copy cwd t op)).
  rewrite IH by (intros op' Hin; apply Hp; by right).
  unfold replay_copy.
  destruct (copy_src cwd op) as [rs|]; [|done].
  destruct (copy_dst cwd op) as [rd|] eqn:Hd; [|done].
  destruct (t !! rs) as [[c|]|]; try done.
  apply lookup_insert_ne. intros ->. by apply (Hp op); [left|].
Qed.

(** A run and a replay that start with the same source files write the same
    bytes to every target. *)
Lemma run_replay_agree (plan : list (string * ArtifactEntry.t)) :
  forall m m' t : fs,
    run_plan cwd plan m = (Ok tt, m') ->
    (forall op, In op plan ->
       exists rs c, copy_src cwd op = Some rs
                    /\ m !! rs = Some (File c) /\ t !! rs = Some (File c)) ->
    forall op rd, In op plan -> copy_dst cwd op = Some rd ->
                  m' !! rd = replay cwd plan t !! rd.
Proof.
  induction plan as [|op0 plan IH]; intros m m' t Hrun Hagree op rd Hin Hd;
    [done|].
  apply run_plan_cons_copied in Hrun
    as (m1 & rs0 & rd0 & c0 & Hs0 & Hd0 & Hc & _ & Hrun).
  assert (Ht0 : t !! rs0 = Some (File c0)).
  { destruct (Hagree op0) as (rs & c & Hs & Hm & Ht); [by left|].
    assert (rs = rs0) as -> by congruence.
    pose proof (copied_src _ _ _ _ _ Hc). congruence. }
  assert (Hr0 : replay_copy cwd t op0 = <[rd0 := File c0]> t).
  { unfold replay_copy. by rewrite Hs0, Hd0, Ht0. }
  unfold replay. simpl fold_left. rewrite Hr0.
  fold (replay cwd plan (<[rd0 := File c0]> t)).
  assert (Hagree1 : forall op', In op' plan ->
            exists rs c, copy_src cwd op' = Some rs
                         /\ m1 !! rs = Some (File c)
                         /\ <[rd0 := File c0]> t !! rs = Some (File c)).
  { intros op' Hin'. destruct (Hagree op') as (rs & c & Hs & Hm & Ht);
      [by right|].
    destruct (decide (rs = rd0)) as [->|Hne].
    - exists rd0, c0. split; [done|].
      split; [apply (copied_dst _ _ _ _ _ Hc) | apply lookup_insert_eq].
    - exists rs, c. split; [done|]. split.
      + apply (grown_some m); [|done]. by apply (copied_frame _ _ _ _ _ Hc).
      + by rewrite lookup_insert_ne. }
  destruct (dst_in_plan_dec plan rd) as [(op' & Hin' & Hd')|Hno].
  - by apply (IH m1 m' _ Hrun Hagree1 op' rd).
  - destruct Hin as [->|Hin]; [|by destruct (Hno op Hin)].
    assert (rd = rd0) as -> by congruence.
    rewrite replay_frame by done. rewrite lookup_insert_eq.
    apply (grown_some m1); [|apply (copied_dst _ _ _ _ _ Hc)].
    by apply (run_plan_frame plan m1 m').
Qed.
End Plans.

(** ** The writer *)

Section Writer.
Variable cwd : list string.

Lemma run_plan_app (l1 l2 : list (string * ArtifactEntry.t)) (m : fs) :
  run_plan cwd (l1 ++ l2) m
  = match run_plan cwd l1 m with
    | (Ok _, m1) => run_plan cwd l2 m1
    | (Raise e, m1) => (Raise e, m1)
    end.
Proof. apply io_for_app. Qed.

(** Nested loops run the concatenation of the inner plans. *)
Lemma io_for_flat_map {A} (body : A -> io unit)
    (inner : A -> list (string * ArtifactEntry.t)) (l : list A) :
  (forall x m, In x l -> body x m = run_plan cwd (inner x) m) ->
  forall m, io_for body l m = run_plan cwd (flat_map inner l) m.
Proof.
  induction l as [|x l IH]; intros Hbody m; [done|].
  simpl flat_map. rewrite run_plan_app, io_for_cons.
  rewrite Hbody by by left.
  destruct (run_plan cwd (inner x) m) as [[[]|e] m1]; [|done].
  apply IH. intros y m' Hy. apply Hbody. by right.
Qed.

Lemma write_artifact_as_plan (group_path : string) (artifact : Artifact.t)
    (m : fs) :
  MavenRepoWriter.write_artifact cwd group_path artifact m
  = run_plan cwd (plan_of_artifact group_path artifact) m.
Proof.
  unfold MavenRepoWriter.write_artifact, plan_of_artifact.
  apply io_for_flat_map. intros version m0 Hin.
  apply dict_get_keys in Hin as [entries Hget].
  unfold io_bind, io_lift, Dict.item. rewrite Hget.
  unfold run_plan. by rewrite io_for_map.
Qed.

Lemma write_group_as_plan (repo : ArtifactRepo.t)
    (target_dir group_id : string) (m : fs) :
  In group_id (Dict.keys (ArtifactRepo.groups repo)) ->
  MavenRepoWriter.write_group cwd repo target_dir group_id m
  = run_plan cwd
      (match Dict.get group_id (ArtifactRepo.groups repo) with
       | Some group => plan_of_group target_dir group
       | None => []
       end) m.
Proof.
  intros Hin. apply dict_get_keys in Hin as [group Hget].
  unfold MavenRepoWriter.write_group, io_bind, io_lift, Dict.item.
  rewrite Hget. unfold plan_of_group.
  apply io_for_flat_map. intros artifact m0 _.
  apply write_artifact_as_plan.
Qed.

Lemma write_as_plan (repo : ArtifactRepo.t) (target_dir : string) (m : fs) :
  MavenRepoWriter.write cwd repo target_dir m
  = match (if negb (os.path_exists cwd m target_dir)
           then os.makedirs cwd target_dir m else io_ret tt m) with
    | (Ok _, m0) => run_plan cwd (copy_plan repo target_dir) m0
    | (Raise e, m0) => (Raise e, m0)
    end.
Proof.
  unfold MavenRepoWriter.write, io_bind.
  destruct (if negb (os.path_exists cwd m target_dir)
            then os.makedirs cwd target_dir m else io_ret tt m)
    as [[[]|e] m0]; [|done].
  unfold copy_plan. apply io_for_flat_map.
  intros group_id m1 Hin. by apply write_group_as_plan.
Qed.

Lemma write_existing (repo : ArtifactRepo.t) (target_dir : string) (m : fs) :
  os.path_exists cwd m target_dir = true ->
  MavenRepoWriter.write cwd repo target_dir m
  = run_plan cwd (copy_plan repo target_dir) m.
Proof. intros H. rewrite write_as_plan, H. reflexivity. Qed.

Lemma write_ok_inv (repo : ArtifactRepo.t) (target_dir : string)
    (m m' : fs) :
  MavenRepoWriter.write cwd repo target_dir m = (Ok tt, m') ->
  exists m0,
    os.path_exists cwd m0 target_dir = true
    /\ (forall q, grown m m0 q)
    /\ run_plan cwd (copy_plan repo target_dir) m0 = (Ok tt, m').
Proof.
  rewrite write_as_plan. intros H.
  destruct (if negb (os.path_exists cwd m target_dir)
            then os.makedirs cwd target_dir m else io_ret tt m)
    as [[[]|e] m0] eqn:Hens; [|discriminate].
  apply ensure_dir_ok in Hens as [Hex Hg]. by exists m0.
Qed.

Lemma copy_plan_in (repo : ArtifactRepo.t) (target_dir group_id : string)
    (group : Group.t) (artifact : Artifact.t) (version : string)
    (entries : list ArtifactEntry.t) (entry : ArtifactEntry.t) :
  Dict.get group_id (ArtifactRepo.groups repo) = Some group ->
  In artifact (Group.artifacts group) ->
  Dict.get version (Artifact.versioned_entries artifact) = Some entries ->
  In entry entries ->
  In (os.path_join
        (os.path_join
           (os.path_join target_dir (Group.get_as_path group))
           (Artifact.id artifact))
        version, entry)
     (copy_plan repo target_dir).
Proof.
  intros Hg Ha Hv He. unfold copy_plan. apply in_flat_map.
  exists group_id. split; [apply dict_get_keys; by eexists|].
  rewrite Hg. unfold plan_of_group. apply in_flat_map.
  exists artifact. split; [done|].
  unfold plan_of_artifact. apply in_flat_map.
  exists version. split; [apply dict_get_keys; by eexists|].
  rewrite Hv. by apply in_map.
Qed.

End Writer.

Example scan_two_hashes :
  GradleCache.load [] cache_two_hashes "/cache" = Ok repo_two_hashes.
Proof. vm_compute. reflexivity. Qed.

Example scan_one_jar :
  GradleCache.load [] cache_one_jar "/cache" = Ok repo_one_jar.
Proof. vm_compute. reflexivity. Qed.


(** The end-to-end scenario of the one-jar cache: the jar arrives at
    [target/org/foo/bar/1.0.0/bar-1.0.0.jar] with its bytes. *)
Example end_to_end_one_jar :
  fst (main [] (run_args false) cache_one_jar) = Ok tt
  /\ snd (main [] (run_args false) cache_one_jar)
     !! ["target"; "org"; "foo"; "bar"; "1.0.0"; "bar-1.0.0.jar"]
     = Some (File [Byte.x50; Byte.x4b]).
Proof. split; vm_compute; reflexivity. Qed.


(** ** The orchestrator *)

Section Orchestrator.
Variable cwd : list string.

Lemma main_unfold (a : args) (m : fs) :
  main cwd a m
  = match GradleCache.load cwd m (gradle_cache_dir a) with
    | Raise e => (Raise e, m)
    | Ok repo =>
        if pre_clean_mvn_dir a
        then match cleanup_mvn_dir cwd (target_mvn_dir a) m with
             | (Ok _, m1) =>
                 MavenRepoWriter.write cwd repo (target_mvn_dir a) m1
             | (Raise e, m1) => (Raise e, m1)
             end
        else MavenRepoWriter.write cwd repo (target_mvn_dir a) m
    end.
Proof.
  unfold main, io_bind.
  destruct (GradleCache.load cwd m (gradle_cache_dir a)) as [repo|e]; [|done].
  by destruct (pre_clean_mvn_dir a).
Qed.

Lemma rmtree_ok (p : string) (m m1 : fs) :
  shutil.rmtree cwd p m = (Ok tt, m1) ->
  exists rt,
    os.resolve cwd p = Some rt /\ m !! rt = Some Dir
    /\ (forall q, rt `prefix_of` q -> m1 !! q = None)
    /\ (forall q, ~ rt `prefix_of` q -> m1 !! q = m !! q).
Proof.
  unfold shutil.rmtree. intros H.
  destruct (os.resolve cwd p) as [rt|]; [|discriminate].
  destruct (m !! rt) as [[c|]|] eqn:Hrt; try discriminate.
  injection H as <-. exists rt. repeat split; try done.
  - intros q Hq. apply map_lookup_filter_None. right.
    intros x _ Hn. by apply Hn.
  - intros q Hq. destruct (m !! q) as [x|] eqn:E.
    + apply map_lookup_filter_Some. by split.
    + apply map_lookup_filter_None. by left.
Qed.








Lemma rerun_fixed_cache (a : args) (repo : ArtifactRepo.t)
    (m m1 : fs) :
  pre_clean_mvn_dir a = false ->
  GradleCache.load cwd m (gradle_cache_dir a) = Ok repo ->
  main cwd a m = (Ok tt, m1) ->
  GradleCache.load cwd m1 (gradle_cache_dir a) = Ok repo ->
  (forall op rs, In op (copy_plan repo (target_mvn_dir a)) ->
                 copy_src cwd op = Some rs -> m1 !! rs = m !! rs) ->
  main cwd a m1 = (Ok tt, m1).
Proof.
  intros Hpre Hload Hmain Hload1 Hsame.
  rewrite main_unfold, Hload, Hpre in Hmain.
  rewrite main_unfold, Hload1, Hpre.
  set (target := target_mvn_dir a) in *.
  set (plan := copy_plan repo target) in *.
  apply write_ok_inv in Hmain as (m0 & Hex & Hgrow & Hrun).
  pose proof (run_plan_settles cwd plan m0 m1 Hrun) as Hset.
  assert (Hex1 : os.path_exists cwd m1 target = true).
  { apply (path_exists_grown cwd target m0); [|done].
    intros q. apply (run_plan_some cwd plan m0 m1 q Hrun). }
  rewrite (write_existing cwd repo target m1 Hex1).
  fold plan. rewrite (settled_run cwd plan plan m1 Hset) by done.
  f_equal. apply map_eq. intros p.
  destruct (dst_in_plan_dec cwd plan p) as [(op & Hin & Hd)|Hno].
  - symmetry. apply (run_replay_agree cwd plan m0 m1 m1 Hrun) with (op := op);
      [|done|done].
    intros op' Hin'.
    destruct (Hset op' Hin') as (rs & rd & cs & cd & Hs & _ & _ & Hfile & _).
    exists rs, cs. split; [done|]. split; [|done].
    apply (grown_some m); [apply Hgrow|].
    by rewrite <- (Hsame op' rs Hin' Hs).
  - by apply replay_frame.
Qed.

(** C7: without the pre-clean flag, a second run over a source cache that
    is the same as before the first run (the scan gives the same repository
    and the files it names have the bytes they had) succeeds and leaves the
    filesystem exactly as the first run left it. *)
Theorem second_run_changes_nothing (a : args) (repo : ArtifactRepo.t)
    (m m1 : fs) :
  pre_clean_mvn_dir a = false ->
  GradleCache.load cwd m (gradle_cache_dir a) = Ok repo ->
  main cwd a m = (Ok tt, m1) ->
  GradleCache.load cwd m1 (gradle_cache_dir a) = Ok repo ->
  (forall op rs, In op (copy_plan repo (target_mvn_dir a)) ->
                 copy_src cwd op = Some rs -> m1 !! rs = m !! rs) ->
  main cwd a m1 = (Ok tt, m1).
Proof. apply rerun_fixed_cache. Qed.


(** C6: [main] scans first, then removes the target directory exactly when
    the pre-clean flag is set, then writes.  With the flag set and a run
    that ends well, the writer starts from a filesystem with nothing at or
    below the target, so that every file found there afterwards is one the
    writer copied. *)
Theorem main_scans_cleans_then_writes (a : args) (m : fs) :
  main cwd a m
  = match GradleCache.load cwd m (gradle_cache_dir a) with
    | Raise e => (Raise e, m)
    | Ok repo =>
        if pre_clean_mvn_dir a
        then match shutil.rmtree cwd (target_mvn_dir a) m with
             | (Ok _, m1) =>
                 MavenRepoWriter.write cwd repo (target_mvn_dir a) m1
             | (Raise e, m1) => (Raise e, m1)
             end
        else MavenRepoWriter.write cwd repo (target_mvn_dir a) m
    end
  /\ (forall repo m',
        GradleCache.load cwd m (gradle_cache_dir a) = Ok repo ->
        pre_clean_mvn_dir a = true ->
        main cwd a m = (Ok tt, m') ->
        exists rt m1,
          os.resolve cwd (target_mvn_dir a) = Some rt
          /\ cleanup_mvn_dir cwd (target_mvn_dir a) m = (Ok tt, m1)
          /\ (forall q, rt `prefix_of` q -> m1 !! q = None)
          /\ (forall q, ~ rt `prefix_of` q -> m1 !! q = m !! q)
          /\ MavenRepoWriter.write cwd repo (target_mvn_dir a) m1 = (Ok tt, m')
          /\ (forall q c,
                rt `prefix_of` q -> m' !! q = Some (File c) ->
                exists op,
                  In op (copy_plan repo (target_mvn_dir a))
                  /\ copy_dst cwd op = Some q)).
Proof.
  split; [apply main_unfold|].
  intros repo m' Hload Hpre Hmain.
  rewrite main_unfold, Hload, Hpre in Hmain. unfold cleanup_mvn_dir in *.
  destruct (shutil.rmtree cwd (target_mvn_dir a) m) as [[[]|e] m1] eqn:Hrm;
    [|discriminate].
  destruct (rmtree_ok _ _ _ Hrm) as (rt & Hrt & _ & Hgone & Hkept).
  exists rt, m1. repeat split; try done.
  intros q c Hq Hfile.
  apply write_ok_inv in Hmain as (m0 & _ & Hgrow & Hrun).
  destruct (dst_in_plan_dec cwd (copy_plan repo (target_mvn_dir a)) q)
    as [Hin|Hno]; [done|].
  pose proof (run_plan_frame cwd _ m0 m' q Hrun Hno) as Hg.
  apply (grown_file _ _ _ _ Hg) in Hfile.
  apply (grown_file _ _ _ _ (Hgrow q)) in Hfile.
  rewrite (Hgone q Hq) in Hfile. discriminate.
Qed.

End Orchestrator.

Lemma second_run_changes_nothing_witness :
  main [] (run_args false) (snd (main [] (run_args false) cache_one_jar))
  = (Ok tt, snd (main [] (run_args false) cache_one_jar)).
Proof.
  apply (second_run_changes_nothing [] (run_args false) repo_one_jar
           cache_one_jar).
  - reflexivity.
  - vm_compute. reflexivity.
  - apply io_ok_snd. vm_compute. reflexivity.
  - vm_compute. reflexivity.
  - intros op rs [<-|[<-|[]]] Hs; vm_compute in Hs; injection Hs as <-;
      vm_compute; reflexivity.
Defined.

(** With two entries that share a target location the second run also
    changes nothing: the later copy wins again. *)
Example second_run_two_hashes :
  main [] (run_args false) (snd (main [] (run_args false) cache_two_hashes))
  = (Ok tt, snd (main [] (run_args false) cache_two_hashes)).
Proof.
  apply (rerun_fixed_cache [] (run_args false) repo_two_hashes
           cache_two_hashes).
  - reflexivity.
  - vm_compute. reflexivity.
  - apply io_ok_snd. vm_compute. reflexivity.
  - vm_compute. reflexivity.
  - intros op rs [<-|[<-|[<-|[]]]] Hs; vm_compute in Hs; injection Hs as <-;
      vm_compute; reflexivity.
Qed.

Lemma main_scans_cleans_then_writes_witness :
  fst (main [] (run_args true) cache_and_stale_target) = Ok tt
  /\ snd (shutil.rmtree [] "/target" cache_and_stale_target)
     !! ["target"; "old"; "stale.txt"] = None
  /\ forall c,
       snd (main [] (run_args true) cache_and_stale_target)
       !! ["target"; "old"; "stale.txt"] <> Some (File c).
Proof.
  assert (Hmain : main [] (run_args true) cache_and_stale_target
                  = (Ok tt, snd (main [] (run_args true)
                                   cache_and_stale_target)))
    by (apply io_ok_snd; vm_compute; reflexivity).
  destruct (proj2 (main_scans_cleans_then_writes [] (run_args true)
                     cache_and_stale_target) repo_one_jar
             (snd (main [] (run_args true) cache_and_stale_target)))
    as (rt & m1 & Hrt & Hrm & Hgone & _ & _ & Hnew);
    [vm_compute; reflexivity | reflexivity | exact Hmain |].
  vm_compute in Hrt. injection Hrt as <-.
  split; [by rewrite Hmain|]. split.
  - unfold cleanup_mvn_dir in Hrm. simpl in Hrm. rewrite Hrm. simpl.
    apply Hgone. by exists ["old"; "stale.txt"].
  - intros c Hc.
    destruct (Hnew _ c (ltac:(by exists ["old"; "stale.txt"])) Hc)
      as (op & Hin & Hd).
    simpl in Hin. destruct Hin as [<-|[<-|[]]]; vm_compute in Hd;
      discriminate.
Defined.


(** ** Errors of the scanner *)


Lemma dict_get_set_ne {V} (k k' : string) (v : V) (d : Dict.t V) :
  k <> k' -> Dict.get k (Dict.set k' v d) = Dict.get k d.
Proof.
  intros Hne. induction d as [|[k0 v0] d IH]; simpl.
  - by destruct (String.eqb_spec k k').
  - destruct (String.eqb_spec k' k0) as [->|Hk0]; simpl.
    + by destruct (String.eqb_spec k k0).
    + destruct (String.eqb_spec k k0); [done | apply IH].
Qed.

Section ScanErrors.
Variable cwd : list string.
Variable m : fs.






Lemma item_get {V} (k : string) (d : Dict.t V) (v : V) :
  Dict.item k d = Ok v -> Dict.get k d = Some v.
Proof. unfold Dict.item. destruct (Dict.get k d); by intros [= <-]. Qed.






Lemma glob_nothing_to_list (cache_dir : string) (e : exn) :
  os.listdir cwd m (os.path_join cache_dir "caches") = Raise e ->
  glob.glob_module_paths cwd m cache_dir = [].
Proof.
  intros H. unfold glob.glob_module_paths, glob.scandir. by rewrite H.
Qed.

End ScanErrors.


(** * Further properties of the object model *)

Lemma dict_mem_false {V} (k : string) (d : Dict.t V) :
  Dict.mem k d = false <-> Dict.get k d = None.
Proof. unfold Dict.mem. destruct (Dict.get k d); split; intros H; done. Qed.

Lemma dict_set_absent {V} (k : string) (v : V) (d : Dict.t V) :
  Dict.mem k d = false -> Dict.set k v d = d ++ [(k, v)].
Proof.
  rewrite dict_mem_false. induction d as [|[k' v'] d IH]; simpl; [done|].
  destruct (String.eqb k k'); [done|]. intros H. by rewrite IH.
Qed.

Lemma dict_keys_set_present {V} (k : string) (v : V) (d : Dict.t V) :
  Dict.mem k d = true -> Dict.keys (Dict.set k v d) = Dict.keys d.
Proof.
  unfold Dict.mem. induction d as [|[k' v'] d IH]; simpl; [done|].
  destruct (String.eqb k k'); [done|]. intros H. simpl.
  f_equal. by apply IH.
Qed.

Lemma dict_keys_set {V} (k : string) (v : V) (d : Dict.t V) :
  Dict.keys (Dict.set k v d)
  = if Dict.mem k d then Dict.keys d else Dict.keys d ++ [k].
Proof.
  destruct (Dict.mem k d) eqn:E.
  - by apply dict_keys_set_present.
  - rewrite (dict_set_absent k v d E). unfold Dict.keys.
    by rewrite map_app.
Qed.

Lemma append_entry_effect (a : Artifact.t) (version : string)
    (e : ArtifactEntry.t) :
  exists a',
    Artifact.append_entry a version e = Ok a'
    /\ Artifact.oid a' = Artifact.oid a
    /\ Artifact.id a' = Artifact.id a
    /\ Dict.get version (Artifact.versioned_entries a')
       = Some (match Dict.get version (Artifact.versioned_entries a) with
               | Some l => l ++ [e]
               | None => [e; e]
               end)
    /\ (forall v, v <> version ->
          Dict.get v (Artifact.versioned_entries a')
          = Dict.get v (Artifact.versioned_entries a))
    /\ Dict.keys (Artifact.versioned_entries a')
       = if Dict.mem version (Artifact.versioned_entries a)
         then Dict.keys (Artifact.versioned_entries a)
         else Dict.keys (Artifact.versioned_entries a) ++ [version].
Proof.
  unfold Artifact.append_entry.
  destruct (Dict.mem version (Artifact.versioned_entries a)) eqn:Hmem;
    cbn [negb].
  - destruct (proj1 (dict_mem_get _ _) Hmem) as [l Hget].
    unfold Dict.item. rewrite Hget. cbn [rbind].
    eexists. split; [reflexivity|].
    cbn [Artifact.oid Artifact.id Artifact.versioned_entries].
    rewrite dict_get_set_eq, dict_keys_set, Hmem.
    repeat split; try done. intros v Hv. by apply dict_get_set_ne.
  - pose proof (proj1 (dict_mem_false _ _) Hmem) as Hget.
    unfold Dict.item. rewrite dict_get_set_eq. cbn [rbind].
    eexists. split; [reflexivity|].
    cbn [Artifact.oid Artifact.id Artifact.versioned_entries].
    rewrite dict_set_set, dict_get_set_eq, dict_keys_set, Hmem, Hget.
    repeat split; try done. intros v Hv. by apply dict_get_set_ne.
Qed.

(** X1: [append_entry] never raises.  It keeps the artifact's identity and
    identifier, leaves the lists and the order of the other versions as
    they are, puts a new version last, and adds the entry at the end of the
    version's list without looking for it there: one more entry for a
    version the artifact has, the entry twice for a new version. *)
Theorem append_entry_never_raises (a : Artifact.t) (version : string)
    (e : ArtifactEntry.t) :
  exists a',
    Artifact.append_entry a version e = Ok a'
    /\ Artifact.oid a' = Artifact.oid a
    /\ Artifact.id a' = Artifact.id a
    /\ Artifact.get_entries a' version
       = Ok (match Dict.get version (Artifact.versioned_entries a) with
             | Some l => l ++ [e]
             | None => [e; e]
             end)
    /\ (forall v, v <> version ->
          Artifact.get_entries a' v = Artifact.get_entries a v)
    /\ Artifact.get_versions a'
       = if Dict.mem version (Artifact.versioned_entries a)
         then Artifact.get_versions a
         else Artifact.get_versions a ++ [version].
Proof.
  destruct (append_entry_effect a version e)
    as (a' & Hrun & Hoid & Hid & Hget & Hother & Hkeys).
  exists a'. unfold Artifact.get_entries, Artifact.get_versions, Dict.item.
  rewrite Hget. repeat split; try done.
  intros v Hv. by rewrite (Hother v Hv).
Qed.

(** X2: [get_entries] raises KeyError exactly for the versions that
    [get_versions] does not list, and returns the stored list for the
    others. *)
Theorem get_entries_raises_off_versions (a : Artifact.t) (version : string) :
  (Artifact.get_entries a version = Raise KeyError
   <-> ~ In version (Artifact.get_versions a))
  /\ (In version (Artifact.get_versions a)
      <-> exists l, Artifact.get_entries a version = Ok l).
Proof.
  unfold Artifact.get_entries, Artifact.get_versions, Dict.item.
  rewrite dict_get_keys.
  destruct (Dict.get version (Artifact.versioned_entries a)) as [l|].
  - split.
    + split; [done|]. intros H. destruct H. by eexists.
    + split; intros _; by eexists.
  - split.
    + split; [|done]. intros _ [? ?]. done.
    + split; intros [? ?]; done.
Qed.

Lemma add_group_ok_iff (repo repo' : ArtifactRepo.t)
    (g : Group.t) :
  ArtifactRepo.add_group repo g = Ok repo'
  <-> Dict.mem (Group.id g) (ArtifactRepo.groups repo) = false
      /\ ArtifactRepo.groups repo'
         = ArtifactRepo.groups repo ++ [(Group.id g, g)].
Proof.
  destruct (Dict.mem (Group.id g) (ArtifactRepo.groups repo)) eqn:Hmem.
  - rewrite (add_group_mem_raises repo g Hmem). split; [done | by intros [? _]].
  - unfold ArtifactRepo.add_group. rewrite Hmem.
    rewrite (dict_set_absent _ _ _ Hmem). split.
    + by intros [= <-].
    + intros [_ H]. destruct repo' as [d]. simpl in H. by rewrite H.
Qed.

(** X3: [add_group] succeeds exactly for a group whose identifier is new,
    and then stores the group as it is under its identifier, after the
    groups the repository has, which stay as they are. *)
Theorem add_group_new_id_appends (repo repo' : ArtifactRepo.t)
    (g : Group.t) :
  ArtifactRepo.add_group repo g = Ok repo'
  <-> Dict.mem (Group.id g) (ArtifactRepo.groups repo) = false
      /\ ArtifactRepo.groups repo'
         = ArtifactRepo.groups repo ++ [(Group.id g, g)].
Proof. apply add_group_ok_iff. Qed.

(** * Further properties of the scanner *)

Lemma dict_not_in_keys {V} (k : string) (d : Dict.t V) :
  Dict.mem k d = false <-> k ∉ Dict.keys d.
Proof.
  rewrite dict_mem_false, list_elem_of_In, dict_get_keys.
  destruct (Dict.get k d); split; try done.
  intros H. destruct H. by eexists.
Qed.

Lemma add_discovered_inv (found : list (string * string)) :
  forall repo repo' : ArtifactRepo.t,
    add_discovered repo found = Ok repo' ->
    (forall g, g ∈ map snd found -> g ∉ Dict.keys (ArtifactRepo.groups repo))
    /\ NoDup (map snd found)
    /\ ArtifactRepo.groups repo'
       = ArtifactRepo.groups repo ++ map group_of_discovery found.
Proof.
  induction found as [|d found IH]; intros repo repo' Hrun.
  - injection Hrun as <-. repeat split.
    + intros g Hg. by apply not_elem_of_nil in Hg.
    + by apply NoDup_nil.
    + by rewrite app_nil_r.
  - unfold add_discovered in Hrun. cbn [rfold] in Hrun.
    apply rbind_ok in Hrun as (repo1 & Hadd & Hrun).
    apply add_group_ok_iff in Hadd as [Hnew Hgroups].
    destruct (IH repo1 repo' Hrun) as (Hfresh & Hnodup & Hall).
    rewrite Hgroups in Hfresh, Hall.
    assert (Hkeys : forall g,
              (g ∉ Dict.keys
                     (ArtifactRepo.groups repo ++ [group_of_discovery d]))
              <-> ((g ∉ Dict.keys (ArtifactRepo.groups repo)) /\ g <> snd d)).
    { intros g. unfold Dict.keys. rewrite map_app, not_elem_of_app. simpl.
      rewrite list_elem_of_singleton. tauto. }
    repeat split.
    + intros g Hg. simpl in Hg. apply elem_of_cons in Hg as [->|Hg].
      * by apply dict_not_in_keys.
      * by apply (proj1 (Hkeys g) (Hfresh g Hg)).
    + simpl. apply NoDup_cons. split; [|done].
      intros Hin. by destruct (proj1 (Hkeys _) (Hfresh _ Hin)).
    + rewrite Hall. by rewrite <- app_assoc.
Qed.

Lemma add_discovered_ok (found : list (string * string)) :
  forall repo : ArtifactRepo.t,
    (forall g, g ∈ map snd found -> g ∉ Dict.keys (ArtifactRepo.groups repo)) ->
    NoDup (map snd found) ->
    add_discovered repo found
    = Ok {| ArtifactRepo.groups :=
              ArtifactRepo.groups repo ++ map group_of_discovery found |}.
Proof.
  induction found as [|d found IH]; intros repo Hfresh Hnodup.
  - simpl. rewrite app_nil_r. by destruct repo.
  - unfold add_discovered. cbn [rfold].
    simpl in Hnodup. apply NoDup_cons in Hnodup as [Hd Hnodup].
    assert (Hadd : ArtifactRepo.add_group repo (snd (group_of_discovery d))
                   = Ok {| ArtifactRepo.groups :=
                             ArtifactRepo.groups repo
                             ++ [group_of_discovery d] |}).
    { apply add_group_ok_iff. split; [|done].
      apply dict_not_in_keys, Hfresh. simpl. by left. }
    rewrite Hadd. cbn [rbind].
    fold (add_discovered
            {| ArtifactRepo.groups :=
                 ArtifactRepo.groups repo ++ [group_of_discovery d] |} found).
    rewrite IH; [|intros g Hg|done].
    + simpl. by rewrite <- app_assoc.
    + simpl. unfold Dict.keys. rewrite map_app, not_elem_of_app. simpl.
      rewrite list_elem_of_singleton. split.
      * apply Hfresh. simpl. by right.
      * intros ->. done.
Qed.

Lemma add_discovered_raise (found : list (string * string)) :
  forall (repo : ArtifactRepo.t) (e : exn),
    add_discovered repo found = Raise e -> e = AttributeError.
Proof.
  induction found as [|d found IH]; intros repo e Hrun; [done|].
  unfold add_discovered in Hrun. cbn [rfold] in Hrun.
  destruct (Dict.mem (Group.id (snd (group_of_discovery d)))
              (ArtifactRepo.groups repo)) eqn:Hmem.
  - rewrite (add_group_mem_raises _ _ Hmem) in Hrun. by injection Hrun.
  - destruct (ArtifactRepo.add_group repo (snd (group_of_discovery d)))
      as [repo1|e1] eqn:Hadd.
    + by apply (IH repo1).
    + unfold ArtifactRepo.add_group in Hadd. by rewrite Hmem in Hadd.
Qed.

Section FirstPass.
Variable cwd : list string.
Variable m : fs.

(** The first pass adds the discovered group directories one by one. *)
Lemma groups_pass_adds_discovered (roots : list string) :
  forall found all : list (string * string),
    rfold
      (fun found module_path =>
         do names <- os.listdir cwd m module_path ;
         Ok (found ++ map (pair module_path) names))
      roots found = Ok all ->
    exists rest,
      all = found ++ rest
      /\ forall repo : ArtifactRepo.t,
           rfold
             (fun repo module_path =>
                do names <- os.listdir cwd m module_path ;
                rfold
                  (fun repo group_id =>
                     ArtifactRepo.add_group repo
                       (Group.init group_id
                          (os.path_join module_path group_id)))
                  names repo)
             roots repo
           = add_discovered repo rest.
Proof.
  induction roots as [|root roots IH]; intros found all Hall;
    cbn [rfold] in *.
  - exists []. injection Hall as <-. by rewrite app_nil_r.
  - destruct (os.listdir cwd m root) as [names|e]; cbn [rbind] in *;
      [|discriminate].
    destruct (IH _ _ Hall) as (rest & -> & Hrun).
    exists (map (pair root) names ++ rest).
    split; [by rewrite app_assoc|].
    intros repo. unfold add_discovered. rewrite rfold_app, rfold_map.
    cbn [group_of_discovery fst snd].
    destruct (rfold _ names repo) as [repo1|e]; cbn [rbind]; [apply Hrun | done].
Qed.

(** When the first pass ends well, so did every listing. *)
Lemma groups_pass_ok_discovers (roots : list string) :
  forall (repo repo' : ArtifactRepo.t) (found : list (string * string)),
    rfold
      (fun repo module_path =>
         do names <- os.listdir cwd m module_path ;
         rfold
           (fun repo group_id =>
              ArtifactRepo.add_group repo
                (Group.init group_id (os.path_join module_path group_id)))
           names repo)
      roots repo = Ok repo' ->
    exists all,
      rfold
        (fun found module_path =>
           do names <- os.listdir cwd m module_path ;
           Ok (found ++ map (pair module_path) names))
        roots found = Ok all.
Proof.
  induction roots as [|root roots IH]; intros repo repo' found Hrun;
    cbn [rfold] in *.
  - by eexists.
  - apply rbind_ok in Hrun as (repo1 & Hroot & Hrun).
    apply rbind_ok in Hroot as (names & -> & _). cbn [rbind].
    by apply (IH repo1 repo').
Qed.

Lemma generate_groups_spec (cache_dir : string) (repo : ArtifactRepo.t) :
  GradleCache.generate_groups cwd m cache_dir ArtifactRepo.init = Ok repo
  <-> exists found,
        discovered_groups cwd m cache_dir = Ok found
        /\ NoDup (map snd found)
        /\ ArtifactRepo.groups repo = map group_of_discovery found.
Proof.
  unfold GradleCache.generate_groups, discovered_groups. split.
  - intros Hrun.
    destruct (groups_pass_ok_discovers _ _ _ [] Hrun) as [all Hall].
    destruct (groups_pass_adds_discovered _ _ _ Hall) as (rest & -> & Hsame).
    rewrite Hsame in Hrun.
    apply add_discovered_inv in Hrun as (_ & Hnodup & Hgroups).
    exists rest. by rewrite Hall.
  - intros (found & Hall & Hnodup & Hgroups).
    destruct (groups_pass_adds_discovered _ _ _ Hall) as (rest & -> & Hsame).
    rewrite Hsame, add_discovered_ok; [| |done].
    + destruct repo as [d]. simpl in *. by rewrite Hgroups.
    + intros g _. simpl. apply not_elem_of_nil.
Qed.

(** X4: the first pass ends well exactly when every module root can be
    listed and no group name occurs twice in the listings; the repository
    then holds one group per name, in discovery order, stored under its
    name, with the path of its directory and no artifacts.  When the
    listings succeed and a name occurs twice, the pass raises
    AttributeError. *)
Theorem generate_groups_needs_distinct_names (cache_dir : string) :
  (forall repo,
     GradleCache.generate_groups cwd m cache_dir ArtifactRepo.init = Ok repo
     <-> exists found,
           discovered_groups cwd m cache_dir = Ok found
           /\ NoDup (map snd found)
           /\ ArtifactRepo.groups repo = map group_of_discovery found)
  /\ (forall found,
        discovered_groups cwd m cache_dir = Ok found ->
        ~ NoDup (map snd found) ->
        GradleCache.generate_groups cwd m cache_dir ArtifactRepo.init
        = Raise AttributeError).
Proof.
  split; [apply generate_groups_spec|].
  intros found Hall Hdup.
  destruct (GradleCache.generate_groups cwd m cache_dir ArtifactRepo.init)
    as [repo|e] eqn:Hrun.
  - apply generate_groups_spec in Hrun as (found' & Hall' & Hnodup & _).
    assert (found' = found) as -> by congruence. done.
  - unfold GradleCache.generate_groups, discovered_groups in *.
    destruct (groups_pass_adds_discovered _ _ _ Hall) as (rest & _ & Hsame).
    rewrite Hsame in Hrun. by rewrite (add_discovered_raise _ _ _ Hrun).
Qed.
End FirstPass.

Lemma append_all_effect (version : string) (es : list ArtifactEntry.t) :
  forall a : Artifact.t,
    exists a',
      append_all version a es = Ok a'
      /\ Artifact.oid a' = Artifact.oid a
      /\ Artifact.id a' = Artifact.id a
      /\ (forall v, v <> version ->
            Dict.get v (Artifact.versioned_entries a')
            = Dict.get v (Artifact.versioned_entries a))
      /\ (es = [] -> a' = a)
      /\ Dict.get version (Artifact.versioned_entries a')
         = match es with
           | [] => Dict.get version (Artifact.versioned_entries a)
           | e :: _ =>
               Some (match Dict.get version (Artifact.versioned_entries a) with
                     | Some l => l ++ es
                     | None => e :: es
                     end)
           end.
Proof.
  induction es as [|e es IH]; intros a.
  - exists a. by repeat split.
  - rewrite append_all_cons.
    destruct (append_entry_effect a version e)
      as (a1 & -> & Hoid1 & Hid1 & Hget1 & Hother1 & _). cbn [rbind].
    destruct (IH a1) as (a' & Hrun & Hoid & Hid & Hother & _ & Hget).
    exists a'. split; [done|]. split; [congruence|]. split; [congruence|].
    split; [intros v Hv; by rewrite Hother, Hother1|]. split; [done|].
    rewrite Hget, Hget1.
    destruct es as [|e2 es];
      destruct (Dict.get version (Artifact.versioned_entries a));
      simpl; try done.
    by rewrite <- app_assoc.
Qed.

Section SecondPass.
Variable cwd : list string.
Variable m : fs.

Lemma scan_version_raise (vp version : string) (hashes : list string) :
  forall (a : Artifact.t) (found : list ArtifactEntry.t) (e : exn),
    rfold
      (fun found h =>
         do files <- os.listdir cwd m (os.path_join vp h) ;
         Ok (found
             ++ map (fun f => ArtifactEntry.mk f (os.path_join vp h)) files))
      hashes found = Raise e ->
    rfold
      (fun a h =>
         do files <- os.listdir cwd m (os.path_join vp h) ;
         rfold
           (fun a f =>
              Artifact.append_entry a version
                (ArtifactEntry.mk f (os.path_join vp h)))
           files a)
      hashes a
    = Raise e.
Proof.
  induction hashes as [|h hashes IH]; intros a found e Hrun;
    cbn [rfold] in *; [done|].
  destruct (os.listdir cwd m (os.path_join vp h)) as [files|e'];
    cbn [rbind] in *; [|cbn; congruence].
  destruct (append_all_effect version
              (map (fun f => ArtifactEntry.mk f (os.path_join vp h)) files) a)
    as (a1 & Ha1 & _).
  unfold append_all in Ha1. rewrite rfold_map in Ha1. rewrite Ha1.
  cbn [rbind]. exact (IH a1 _ e Hrun).
Qed.

(** A scan of a version is the discovery of its entries followed by their
    appending. *)
Lemma scan_version_as_append (a : Artifact.t) (artifact_path version : string) :
  GradleCache.load_artifact_entries_by_version cwd m a artifact_path version
  = rbind (discovered_entries cwd m artifact_path version)
      (append_all version a).
Proof.
  unfold GradleCache.load_artifact_entries_by_version, discovered_entries.
  destruct (os.listdir cwd m (os.path_join artifact_path version))
    as [hashes|e]; cbn [rbind]; [|done].
  destruct (rfold _ hashes []) as [all|e] eqn:Hall; cbn [rbind].
  - destruct (load_entries_appends_discovered cwd m _ version hashes _ _ Hall)
      as (rest & Heq & Hrun).
    simpl in Heq. subst rest. apply Hrun.
  - by apply (scan_version_raise _ version hashes a [] e).
Qed.

(** X5: scanning a version raises exactly when one of its listings does,
    with that error; otherwise it keeps the artifact's identity and
    identifier and the lists of its other versions, and appends the
    discovered entries in order after those the version has.  A version
    directory that holds no file leaves the artifact as it is, without the
    version. *)
Theorem scan_version_appends_discovered (a : Artifact.t)
    (artifact_path version : string) :
  match discovered_entries cwd m artifact_path version with
  | Raise e =>
      GradleCache.load_artifact_entries_by_version cwd m a artifact_path
        version = Raise e
  | Ok es =>
      exists a',
        GradleCache.load_artifact_entries_by_version cwd m a artifact_path
          version = Ok a'
        /\ Artifact.oid a' = Artifact.oid a
        /\ Artifact.id a' = Artifact.id a
        /\ (forall v, v <> version ->
              Artifact.get_entries a' v = Artifact.get_entries a v)
        /\ (es = [] -> a' = a)
        /\ (forall l,
              Artifact.get_entries a version = Ok l ->
              Artifact.get_entries a' version = Ok (l ++ es))
  end.
Proof.
  rewrite scan_version_as_append.
  destruct (discovered_entries cwd m artifact_path version) as [es|e];
    cbn [rbind]; [|done].
  destruct (append_all_effect version es a)
    as (a' & Hrun & Hoid & Hid & Hother & Hnil & Hget).
  exists a'. unfold Artifact.get_entries, Dict.item.
  repeat split; try done.
  - intros v Hv. by rewrite Hother.
  - intros l Hl. rewrite Hget.
    destruct (Dict.get version (Artifact.versioned_entries a)) as [l0|];
      [|done].
    injection Hl as ->. destruct es; [by rewrite app_nil_r | done].
Qed.
End SecondPass.

Lemma scan_version_appends_discovered_witness :
  GradleCache.load_artifact_entries_by_version [] cache_empty_version
    artifact_one_jar "/cache/caches/modules-2/files-2.1/org.foo/bar" "2.0.0"
  = Ok artifact_one_jar
  /\ GradleCache.load_artifact_entries_by_version [] cache_one_jar
       artifact_one_jar "/cache/caches/modules-2/files-2.1/org.foo/bar"
       "2.0.0"
     = Raise FileNotFoundError.
Proof.
  split.
  - assert (E : discovered_entries [] cache_empty_version
                  "/cache/caches/modules-2/files-2.1/org.foo/bar" "2.0.0"
                = Ok []) by (vm_compute; reflexivity).
    pose proof (scan_version_appends_discovered [] cache_empty_version
                  artifact_one_jar
                  "/cache/caches/modules-2/files-2.1/org.foo/bar" "2.0.0")
      as H.
    rewrite E in H. destruct H as (a' & -> & _ & _ & _ & Hnil & _).
    by rewrite Hnil.
  - assert (E : discovered_entries [] cache_one_jar
                  "/cache/caches/modules-2/files-2.1/org.foo/bar" "2.0.0"
                = Raise FileNotFoundError) by (vm_compute; reflexivity).
    pose proof (scan_version_appends_discovered [] cache_one_jar
                  artifact_one_jar
                  "/cache/caches/modules-2/files-2.1/org.foo/bar" "2.0.0")
      as H.
    rewrite E in H. exact H.
Defined.

Section ScannedArtifacts.
Variable cwd : list string.
Variable m : fs.

Lemma discovered_entries_found (vp : string) (hashes : list string) :
  forall found all : list ArtifactEntry.t,
    rfold
      (fun found h =>
         do files <- os.listdir cwd m (os.path_join vp h) ;
         Ok (found
             ++ map (fun f => ArtifactEntry.mk f (os.path_join vp h)) files))
      hashes found = Ok all ->
    forall e,
      In e all
      <-> In e found
          \/ exists h files,
               In h hashes
               /\ os.listdir cwd m (os.path_join vp h) = Ok files
               /\ In (ArtifactEntry.file_name e) files
               /\ ArtifactEntry.location e = os.path_join vp h.
Proof.
  induction hashes as [|h hashes IH]; intros found all Hall e;
    cbn [rfold] in Hall.
  - injection Hall as <-. split; [by left|].
    intros [H|(h & files & [] & _)]. done.
  - destruct (os.listdir cwd m (os.path_join vp h)) as [files|err] eqn:Hls;
      cbn [rbind] in Hall; [|discriminate].
    rewrite (IH _ _ Hall e), in_app_iff, in_map_iff. split.
    + intros [[H|(f & <- & Hf)]|(h' & files' & Hh' & Hls' & Hf & Hloc)].
      * by left.
      * right. exists h, files. repeat split; try done. by left.
      * right. exists h', files'. repeat split; try done. by right.
    + intros [H|(h' & files' & [<-|Hh'] & Hls' & Hf & Hloc)].
      * left. by left.
      * left. right. exists (ArtifactEntry.file_name e).
        assert (files' = files) as -> by congruence.
        split; [|done]. destruct e as [f l]. simpl in *. by rewrite Hloc.
      * right. by exists h', files'.
Qed.

Lemma scan_version_ok_inv (a a' : Artifact.t)
    (artifact_path version : string) :
  GradleCache.load_artifact_entries_by_version cwd m a artifact_path version
  = Ok a' ->
  exists es,
    discovered_entries cwd m artifact_path version = Ok es
    /\ append_all version a es = Ok a'.
Proof.
  rewrite scan_version_as_append. intros H.
  apply rbind_ok in H as (es & Hes & Hrun). by exists es.
Qed.

(** X6: after the scan of a version the artifact did not have, the entries
    of the version are exactly the names found in the version's
    content-hash directories, each with the path of its content-hash
    directory (not of the version directory) as its location. *)
Theorem scanned_entries_are_hash_dir_names (a a' : Artifact.t)
    (artifact_path version : string) (e : ArtifactEntry.t) :
  GradleCache.load_artifact_entries_by_version cwd m a artifact_path version
  = Ok a' ->
  Dict.mem version (Artifact.versioned_entries a) = false ->
  (exists l, Artifact.get_entries a' version = Ok l /\ In e l)
  <-> exists hashes h files,
        os.listdir cwd m (os.path_join artifact_path version) = Ok hashes
        /\ In h hashes
        /\ os.listdir cwd m
             (os.path_join (os.path_join artifact_path version) h) = Ok files
        /\ In (ArtifactEntry.file_name e) files
        /\ ArtifactEntry.location e
           = os.path_join (os.path_join artifact_path version) h.
Proof.
  intros Hload Hfresh.
  apply scan_version_ok_inv in Hload as (es & Hes & Hrun).
  destruct (append_all_effect version es a) as (a1 & Hrun1 & _ & _ & _ & _ & Hget).
  assert (a1 = a') as -> by congruence.
  apply dict_mem_false in Hfresh. rewrite Hfresh in Hget.
  assert (Hl : (exists l, Artifact.get_entries a' version = Ok l /\ In e l)
               <-> In e es).
  { unfold Artifact.get_entries, Dict.item. rewrite Hget.
    destruct es as [|e0 es].
    - split; [by intros (l & ? & _) | done].
    - split.
      + intros (l & [= <-] & [<-|Hin]); [by left | done].
      + intros Hin. eexists. split; [done | by right]. }
  rewrite Hl. unfold discovered_entries in Hes.
  destruct (os.listdir cwd m (os.path_join artifact_path version))
    as [hashes|err]; cbn [rbind] in Hes; [|discriminate].
  rewrite (discovered_entries_found _ _ _ _ Hes e). split.
  - intros [[]|(h & files & Hh & Hls & Hf & Hloc)].
    by exists hashes, h, files.
  - intros (hashes' & h & files & [= <-] & Hh & Hls & Hf & Hloc).
    right. by exists h, files.
Qed.

Lemma versions_pass_spec (artifact_path : string) (versions : list string) :
  forall a art : Artifact.t,
    rfold
      (fun a v =>
         GradleCache.load_artifact_entries_by_version cwd m a artifact_path v)
      versions a = Ok art ->
    Artifact.id art = Artifact.id a
    /\ Artifact.oid art = Artifact.oid a
    /\ (forall v, In v versions ->
          exists es, discovered_entries cwd m artifact_path v = Ok es)
    /\ forall v,
         In v (Dict.keys (Artifact.versioned_entries art))
         <-> In v (Dict.keys (Artifact.versioned_entries a))
             \/ (In v versions
                 /\ exists e es,
                      discovered_entries cwd m artifact_path v = Ok (e :: es)).
Proof.
  induction versions as [|v0 versions IH]; intros a art Hrun;
    cbn [rfold] in Hrun.
  - injection Hrun as <-. repeat split; try done.
    + by left.
    + by intros [H|[[] _]].
  - apply rbind_ok in Hrun as (a1 & Hv0 & Hrun).
    apply scan_version_ok_inv in Hv0 as (es0 & Hes0 & Happ).
    destruct (append_all_effect v0 es0 a)
      as (a1' & Happ' & Hoid & Hid & Hother & _ & Hget).
    assert (a1' = a1) as -> by congruence.
    destruct (IH a1 art Hrun) as (Hid' & Hoid' & Hall & Hkeys).
    split; [congruence|]. split; [congruence|]. split.
    { intros v [<-|Hv]; [by exists es0 | by apply Hall]. }
    assert (Hk1 : forall v,
              In v (Dict.keys (Artifact.versioned_entries a1))
              <-> In v (Dict.keys (Artifact.versioned_entries a))
                  \/ (v = v0 /\ exists e es, es0 = e :: es)).
    { intros v. rewrite !dict_get_keys.
      destruct (String.eqb_spec v v0) as [->|Hne].
      - rewrite Hget. destruct es0 as [|e es].
        + split; [by left|]. by intros [H|[_ (? & ? & ?)]].
        + split; [|by eexists]. intros _. right. split; [done|].
          by exists e, es.
      - rewrite (Hother v Hne). split; [by left|]. by intros [H|[? _]]. }
    intros v. rewrite Hkeys, Hk1. split.
    + intros [[H|[-> (e & es & ->)]]|[Hin Hne]].
      * by left.
      * right. split; [by left|]. by exists e, es.
      * right. split; [by right | done].
    + intros [H|[[<-|Hin] (e & es & Hes)]].
      * left. by left.
      * left. right. split; [done|]. exists e, es. congruence.
      * right. split; [done|]. by exists e, es.
Qed.

Lemma load_artifact_spec (n : nat) (artifact_path artifact_id : string)
    (art : Artifact.t) :
  GradleCache.load_artifact cwd m n artifact_path artifact_id = Ok art ->
  Artifact.id art = artifact_id
  /\ Artifact.oid art = n
  /\ exists versions,
       os.listdir cwd m artifact_path = Ok versions
       /\ (forall v, In v versions ->
             exists es, discovered_entries cwd m artifact_path v = Ok es)
       /\ forall v,
            In v (Artifact.get_versions art)
            <-> In v versions
                /\ exists e es,
                     discovered_entries cwd m artifact_path v = Ok (e :: es).
Proof.
  unfold GradleCache.load_artifact. intros H.
  apply rbind_ok in H as (versions & Hls & Hrun).
  apply versions_pass_spec in Hrun as (Hid & Hoid & Hall & Hkeys).
  split; [done|]. split; [done|]. exists versions.
  split; [done|]. split; [done|].
  intros v. unfold Artifact.get_versions. rewrite Hkeys. simpl.
  split; [by intros [[]|H] | by right].
Qed.

(** X7: a loaded artifact carries the identifier it was asked for and the
    identity it was given; every version directory of it could be listed
    down to its files; and its versions are exactly the version directories
    that hold at least one file. *)
Theorem load_artifact_keeps_nonempty_versions (n : nat)
    (artifact_path artifact_id : string) (art : Artifact.t) :
  GradleCache.load_artifact cwd m n artifact_path artifact_id = Ok art ->
  Artifact.id art = artifact_id
  /\ Artifact.oid art = n
  /\ exists versions,
       os.listdir cwd m artifact_path = Ok versions
       /\ (forall v, In v versions ->
             exists es, discovered_entries cwd m artifact_path v = Ok es)
       /\ forall v,
            In v (Artifact.get_versions art)
            <-> In v versions
                /\ exists e es,
                     discovered_entries cwd m artifact_path v = Ok (e :: es).
Proof. apply load_artifact_spec. Qed.
End ScannedArtifacts.

Lemma scanned_entries_are_hash_dir_names_witness :
  (exists l,
     Artifact.get_entries artifact_one_jar "1.0.0" = Ok l /\ In entry_jar l)
  <-> exists hashes h files,
        os.listdir [] cache_one_jar
          (os.path_join "/cache/caches/modules-2/files-2.1/org.foo/bar"
             "1.0.0") = Ok hashes
        /\ In h hashes
        /\ os.listdir [] cache_one_jar
             (os.path_join
                (os.path_join "/cache/caches/modules-2/files-2.1/org.foo/bar"
                   "1.0.0") h) = Ok files
        /\ In (ArtifactEntry.file_name entry_jar) files
        /\ ArtifactEntry.location entry_jar
           = os.path_join
               (os.path_join "/cache/caches/modules-2/files-2.1/org.foo/bar"
                  "1.0.0") h.
Proof.
  apply (scanned_entries_are_hash_dir_names [] cache_one_jar
           (Artifact.init 0 "bar") artifact_one_jar
           "/cache/caches/modules-2/files-2.1/org.foo/bar" "1.0.0" entry_jar).
  - vm_compute. reflexivity.
  - reflexivity.
Defined.

Lemma load_artifact_keeps_nonempty_versions_witness :
  Artifact.get_versions artifact_one_jar = ["1.0.0"]
  /\ exists versions,
       os.listdir [] cache_empty_version
         "/cache/caches/modules-2/files-2.1/org.foo/bar" = Ok versions
       /\ (forall v, In v versions ->
             exists es,
               discovered_entries [] cache_empty_version
                 "/cache/caches/modules-2/files-2.1/org.foo/bar" v = Ok es)
       /\ forall v,
            In v (Artifact.get_versions artifact_one_jar)
            <-> In v versions
                /\ exists e es,
                     discovered_entries [] cache_empty_version
                       "/cache/caches/modules-2/files-2.1/org.foo/bar" v
                     = Ok (e :: es).
Proof.
  split; [reflexivity|].
  apply (load_artifact_keeps_nonempty_versions [] cache_empty_version 0
           "/cache/caches/modules-2/files-2.1/org.foo/bar" "bar"
           artifact_one_jar).
  vm_compute. reflexivity.
Defined.

Lemma dict_get_In {V} (k : string) (v : V) (d : Dict.t V) :
  Dict.get k d = Some v -> In (k, v) d.
Proof.
  induction d as [|[k' v'] d IH]; simpl; [done|].
  destruct (String.eqb_spec k k') as [->|Hne].
  - intros [= ->]. by left.
  - intros H. right. by apply IH.
Qed.

Lemma nodup_map_inj {A B} (f : A -> B) (l : list A) (x y : A) :
  NoDup (map f l) -> In x l -> In y l -> f x = f y -> x = y.
Proof.
  induction l as [|z l IH]; simpl; [done|].
  rewrite NoDup_cons. intros [Hz Hnodup] [->|Hx] [->|Hy] Heq; try done.
  - destruct Hz. rewrite Heq. apply list_elem_of_In. by apply in_map.
  - destruct Hz. rewrite <- Heq. apply list_elem_of_In. by apply in_map.
  - by apply IH.
Qed.

Section ScannedRepo.
Variable cwd : list string.
Variable m : fs.

Lemma artifacts_pass (group_id group_path : string) (names : list string) :
  forall (st st' : ArtifactRepo.t * nat) (g : Group.t),
    oids_below st ->
    Dict.get group_id (ArtifactRepo.groups (fst st)) = Some g ->
    rfold
      (fun st artifact_id =>
         let artifact_path := os.path_join group_path artifact_id in
         do artifact <-
           GradleCache.load_artifact cwd m (snd st) artifact_path artifact_id ;
         do group <- Dict.item group_id (ArtifactRepo.groups (fst st)) ;
         Ok ({| ArtifactRepo.groups :=
                  Dict.set group_id (Group.add_artifact group artifact)
                    (ArtifactRepo.groups (fst st)) |},
             S (snd st)))
      names st = Ok st' ->
    exists arts,
      Dict.get group_id (ArtifactRepo.groups (fst st'))
      = Some {| Group.id := Group.id g; Group.path := Group.path g;
                Group.artifacts := Group.artifacts g ++ arts |}
      /\ map Artifact.id arts = names
      /\ map Artifact.oid arts = seq (snd st) (length names)
      /\ Forall (loaded_from cwd m group_path) arts
      /\ (forall k, k <> group_id ->
            Dict.get k (ArtifactRepo.groups (fst st'))
            = Dict.get k (ArtifactRepo.groups (fst st)))
      /\ Dict.keys (ArtifactRepo.groups (fst st'))
         = Dict.keys (ArtifactRepo.groups (fst st))
      /\ oids_below st'.
Proof.
  induction names as [|name names IH]; intros st st' g Hbelow Hget Hrun;
    cbn [rfold] in Hrun.
  - injection Hrun as <-. exists []. rewrite app_nil_r.
    destruct g. by repeat split.
  - apply rbind_ok in Hrun as (st1 & Hstep & Hrun).
    cbn zeta in Hstep.
    apply rbind_ok in Hstep as (artifact & Hload & Hstep).
    apply rbind_ok in Hstep as (group & Hitem & Hstep).
    apply item_get in Hitem. assert (group = g) as -> by congruence.
    injection Hstep as <-.
    destruct (load_artifact_spec cwd m _ _ _ _ Hload) as (Hid & Hoid & _).
    assert (Hnew : Group.contains (Group.artifacts g) artifact = false).
    { destruct (Group.contains (Group.artifacts g) artifact) eqn:E; [|done].
      apply contains_spec in E as (x & Hx & Hox).
      pose proof (Hbelow _ _ _ Hget Hx). lia. }
    assert (Hadd : Group.add_artifact g artifact
                   = {| Group.id := Group.id g; Group.path := Group.path g;
                        Group.artifacts := Group.artifacts g ++ [artifact] |}).
    { unfold Group.add_artifact. by rewrite Hnew. }
    rewrite Hadd in Hrun.
    set (g1 := {| Group.id := Group.id g; Group.path := Group.path g;
                  Group.artifacts := Group.artifacts g ++ [artifact] |}) in *.
    set (st1 := ({| ArtifactRepo.groups :=
                      Dict.set group_id g1 (ArtifactRepo.groups (fst st)) |},
                 S (snd st))) in *.
    assert (Hbelow1 : oids_below st1).
    { intros k g' a Hk Ha. simpl in *.
      destruct (String.eqb_spec k group_id) as [->|Hne].
      - rewrite dict_get_set_eq in Hk. injection Hk as <-. simpl in Ha.
        apply in_app_iff in Ha as [Ha|[<-|[]]].
        + pose proof (Hbelow _ _ _ Hget Ha). lia.
        + lia.
      - rewrite dict_get_set_ne in Hk by done.
        pose proof (Hbelow _ _ _ Hk Ha). lia. }
    assert (Hget1 : Dict.get group_id (ArtifactRepo.groups (fst st1))
                    = Some g1) by apply dict_get_set_eq.
    destruct (IH st1 st' g1 Hbelow1 Hget1 Hrun)
      as (arts & Hget' & Hids & Hoids & Hloaded & Hother & Hkeys & Hbelow').
    exists (artifact :: arts). simpl in Hget'.
    rewrite <- app_assoc in Hget'. repeat split; try done.
    + simpl. by rewrite Hid, Hids.
    + simpl. by rewrite Hoid, Hoids.
    + apply Forall_cons. split; [|done].
      unfold loaded_from. by rewrite Hid, Hoid.
    + intros k Hk. rewrite (Hother k Hk). simpl.
      by apply dict_get_set_ne.
    + rewrite Hkeys. simpl. apply dict_keys_set_present.
      apply dict_mem_get. by eexists.
Qed.

Lemma groups_pass (keys : list string) :
  forall st st' : ArtifactRepo.t * nat,
    NoDup keys ->
    oids_below st ->
    rfold
      (fun st group_id =>
         do group <- Dict.item group_id (ArtifactRepo.groups (fst st)) ;
         let group_path := Group.path group in
         do names <- os.listdir cwd m group_path ;
         rfold
           (fun st artifact_id =>
              let artifact_path := os.path_join group_path artifact_id in
              do artifact <-
                GradleCache.load_artifact cwd m (snd st) artifact_path
                  artifact_id ;
              do group <- Dict.item group_id (ArtifactRepo.groups (fst st)) ;
              Ok ({| ArtifactRepo.groups :=
                       Dict.set group_id (Group.add_artifact group artifact)
                         (ArtifactRepo.groups (fst st)) |},
                  S (snd st)))
           names st)
      keys st = Ok st' ->
    oids_below st'
    /\ Dict.keys (ArtifactRepo.groups (fst st'))
       = Dict.keys (ArtifactRepo.groups (fst st))
    /\ (forall k, ~ In k keys ->
          Dict.get k (ArtifactRepo.groups (fst st'))
          = Dict.get k (ArtifactRepo.groups (fst st)))
    /\ forall k, In k keys ->
         exists g names arts,
           Dict.get k (ArtifactRepo.groups (fst st)) = Some g
           /\ os.listdir cwd m (Group.path g) = Ok names
           /\ Dict.get k (ArtifactRepo.groups (fst st'))
              = Some {| Group.id := Group.id g; Group.path := Group.path g;
                        Group.artifacts := Group.artifacts g ++ arts |}
           /\ map Artifact.id arts = names
           /\ NoDup (map Artifact.oid arts)
           /\ Forall (loaded_from cwd m (Group.path g)) arts.
Proof.
  induction keys as [|k0 keys IH]; intros st st' Hnodup Hbelow Hrun;
    cbn [rfold] in Hrun.
  - injection Hrun as <-. by repeat split.
  - apply NoDup_cons in Hnodup as [Hk0 Hnodup].
    rewrite list_elem_of_In in Hk0.
    apply rbind_ok in Hrun as (st1 & Hstep & Hrun).
    apply rbind_ok in Hstep as (g & Hitem & Hstep).
    apply item_get in Hitem. cbn zeta in Hstep.
    apply rbind_ok in Hstep as (names & Hls & Hstep).
    destruct (artifacts_pass k0 (Group.path g) names st st1 g Hbelow Hitem Hstep)
      as (arts & Hget1 & Hids & Hoids & Hloaded & Hother1 & Hkeys1 & Hbelow1).
    destruct (IH st1 st' Hnodup Hbelow1 Hrun)
      as (Hbelow' & Hkeys' & Hother' & Hall').
    split; [done|]. split; [congruence|]. split.
    { intros k Hk. rewrite Hother' by (intros Hin; apply Hk; by right).
      apply Hother1. intros ->. apply Hk. by left. }
    intros k [<-|Hk].
    + exists g, names, arts. rewrite (Hother' k0 Hk0).
      repeat split; try done. rewrite Hoids. apply NoDup_seq.
    + destruct (Hall' k Hk) as (g' & names' & arts' & Hg' & Hrest).
      exists g', names', arts'. split; [|done].
      rewrite <- Hg'. symmetry. apply Hother1. by intros ->.
Qed.

Lemma load_structure (cache_dir : string) (repo : ArtifactRepo.t) :
  GradleCache.load cwd m cache_dir = Ok repo ->
  exists found,
    discovered_groups cwd m cache_dir = Ok found
    /\ NoDup (map snd found)
    /\ Dict.keys (ArtifactRepo.groups repo) = map snd found
    /\ forall d, In d found ->
         exists g names,
           Dict.get (snd d) (ArtifactRepo.groups repo) = Some g
           /\ Group.id g = snd d
           /\ Group.path g = os.path_join (fst d) (snd d)
           /\ os.listdir cwd m (Group.path g) = Ok names
           /\ map Artifact.id (Group.artifacts g) = names
           /\ NoDup (map Artifact.oid (Group.artifacts g))
           /\ Forall (loaded_from cwd m (Group.path g)) (Group.artifacts g).
Proof.
  unfold GradleCache.load. intros Hload.
  apply rbind_ok in Hload as (repo0 & Hgroups & Hload).
  apply rbind_ok in Hload as (st & Harts & [= <-]).
  apply generate_groups_spec in Hgroups as (found & Hfound & Hnodup & Hrepo0).
  assert (Hkeys0 : Dict.keys (ArtifactRepo.groups repo0) = map snd found).
  { rewrite Hrepo0. unfold Dict.keys. rewrite map_map. done. }
  assert (Hbelow0 : oids_below (repo0, 0)).
  { intros k g a Hk Ha. simpl in Hk. apply dict_get_In in Hk.
    rewrite Hrepo0 in Hk. apply in_map_iff in Hk as (d & [= _ <-] & _).
    done. }
  unfold GradleCache.generate_artifacts in Harts. simpl fst in Harts.
  apply groups_pass in Harts as (_ & Hkeys & _ & Hall);
    [|by rewrite Hkeys0|done].
  exists found. split; [done|]. split; [done|].
  split; [by rewrite Hkeys|].
  intros d Hd.
  destruct (Hall (snd d)) as (g0 & names & arts & Hg0 & Hls & Hg & Hids & Hoids & Hloaded).
  { rewrite Hkeys0. by apply in_map. }
  simpl in Hg0. apply dict_get_In in Hg0. rewrite Hrepo0 in Hg0.
  apply in_map_iff in Hg0 as (d' & Hd' & Hin').
  injection Hd' as Hsnd <-.
  assert (d' = d) as -> by (by apply (nodup_map_inj snd found)).
  simpl in *.
  eexists. exists names. split; [exact Hg|]. by repeat split.
Qed.

(** X8: when the scan ends well, the repository holds one group per
    discovered group directory, in discovery order and under its name, with
    the path of its directory; the group's artifacts are the artifacts
    loaded from the names in that directory, one [Artifact] object per
    name, in listing order, all distinct objects. *)
Theorem scan_gives_one_artifact_per_directory (cache_dir : string)
    (repo : ArtifactRepo.t) :
  GradleCache.load cwd m cache_dir = Ok repo ->
  exists found,
    discovered_groups cwd m cache_dir = Ok found
    /\ NoDup (map snd found)
    /\ Dict.keys (ArtifactRepo.groups repo) = map snd found
    /\ forall d, In d found ->
         exists g names,
           Dict.get (snd d) (ArtifactRepo.groups repo) = Some g
           /\ Group.id g = snd d
           /\ Group.path g = os.path_join (fst d) (snd d)
           /\ os.listdir cwd m (Group.path g) = Ok names
           /\ map Artifact.id (Group.artifacts g) = names
           /\ NoDup (map Artifact.oid (Group.artifacts g))
           /\ Forall (loaded_from cwd m (Group.path g)) (Group.artifacts g).
Proof. apply load_structure. Qed.
End ScannedRepo.

Lemma scan_gives_one_artifact_per_directory_witness :
  exists found,
    discovered_groups [] cache_one_jar "/cache" = Ok found
    /\ NoDup (map snd found)
    /\ Dict.keys (ArtifactRepo.groups repo_one_jar) = map snd found
    /\ forall d, In d found ->
         exists g names,
           Dict.get (snd d) (ArtifactRepo.groups repo_one_jar) = Some g
           /\ Group.id g = snd d
           /\ Group.path g = os.path_join (fst d) (snd d)
           /\ os.listdir [] cache_one_jar (Group.path g) = Ok names
           /\ map Artifact.id (Group.artifacts g) = names
           /\ NoDup (map Artifact.oid (Group.artifacts g))
           /\ Forall (loaded_from [] cache_one_jar (Group.path g))
                (Group.artifacts g).
Proof.
  apply (scan_gives_one_artifact_per_directory [] cache_one_jar "/cache"
           repo_one_jar).
  vm_compute. reflexivity.
Defined.

Lemma generate_groups_needs_distinct_names_witness :
  GradleCache.generate_groups [] cache_two_roots "/cache" ArtifactRepo.init
  = Raise AttributeError.
Proof.
  apply (proj2 (generate_groups_needs_distinct_names [] cache_two_roots
                  "/cache"))
    with (found := [("/cache/caches/modules-3/files-3.0", "org.foo");
                    ("/cache/caches/modules-2/files-2.1", "org.foo")]).
  - vm_compute. reflexivity.
  - intros H. apply NoDup_cons in H as [H _]. apply H. simpl. by left.
Defined.

(** * Further properties of the writer *)




Section WriterFrame.
Variable cwd : list string.







(** X10: the last copy to a target location wins.  When the write ends
    well, the location an entry is copied to holds the bytes the entry's
    source file had before the write, provided no later copy of the write
    goes to that location and no earlier copy went to the entry's source
    file. *)
Theorem last_copy_to_a_location_wins (repo : ArtifactRepo.t)
    (target_dir : string) (m m' : fs)
    (before after : list (string * ArtifactEntry.t))
    (op : string * ArtifactEntry.t) :
  MavenRepoWriter.write cwd repo target_dir m = (Ok tt, m') ->
  copy_plan repo target_dir = before ++ op :: after ->
  (forall op', In op' after -> copy_dst cwd op' <> copy_dst cwd op) ->
  (forall op', In op' before -> copy_dst cwd op' <> copy_src cwd op) ->
  exists rs rd content,
    copy_src cwd op = Some rs /\ copy_dst cwd op = Some rd
    /\ m !! rs = Some (File content)
    /\ m' !! rd = Some (File content).
Proof.
  intros Hw Hplan Hafter Hbefore.
  apply write_ok_inv in Hw as (m0 & _ & Hgrow & Hrun).
  rewrite Hplan, run_plan_app in Hrun.
  destruct (run_plan cwd before m0) as [[[]|err] ma] eqn:Hpre; [|discriminate].
  apply run_plan_cons_copied in Hrun
    as (mb & rs & rd & c & Hs & Hd & Hc & _ & Hpost).
  exists rs, rd, c. split; [done|]. split; [done|]. split.
  - apply (grown_file m m0); [apply Hgrow|].
    apply (grown_file m0 ma); [|apply (copied_src _ _ _ _ _ Hc)].
    apply (run_plan_frame cwd before m0 ma rs Hpre).
    intros op' Hin. rewrite <- Hs. by apply Hbefore.
  - apply (grown_some mb); [|apply (copied_dst _ _ _ _ _ Hc)].
    apply (run_plan_frame cwd after mb m' rd Hpost).
    intros op' Hin. rewrite <- Hd. by apply Hafter.
Qed.

(** X11: after a write that ends well the target directory exists and
    every entry of the model has a regular file at its target location, in
    a directory, whether or not the bytes there are its own; its source is
    still a regular file. *)
Theorem write_leaves_a_file_for_every_entry (repo : ArtifactRepo.t)
    (target_dir : string) (m m' : fs) (group_id : string) (group : Group.t)
    (artifact : Artifact.t) (version : string)
    (entries : list ArtifactEntry.t) (entry : ArtifactEntry.t) :
  MavenRepoWriter.write cwd repo target_dir m = (Ok tt, m') ->
  Dict.get group_id (ArtifactRepo.groups repo) = Some group ->
  In artifact (Group.artifacts group) ->
  Dict.get version (Artifact.versioned_entries artifact) = Some entries ->
  In entry entries ->
  os.path_exists cwd m' target_dir = true
  /\ exists rs rd cs cd,
       os.resolve cwd (ArtifactEntry.get_full_path entry) = Some rs
       /\ os.resolve cwd
            (target_location target_dir group artifact version entry)
          = Some rd
       /\ m' !! rs = Some (File cs)
       /\ m' !! rd = Some (File cd)
       /\ m' !! removelast rd = Some Dir.
Proof.
  intros Hw Hg Ha Hv He.
  apply write_ok_inv in Hw as (m0 & Hex & _ & Hrun). split.
  - apply (path_exists_grown cwd target_dir m0); [|done].
    intros q. apply (run_plan_some cwd _ m0 m' q Hrun).
  - pose proof (copy_plan_in repo target_dir _ _ _ _ _ _ Hg Ha Hv He) as Hin.
    destruct (run_plan_settles cwd _ m0 m' Hrun _ Hin)
      as (rs & rd & cs & cd & Hs & Hd & _ & Hfs & Hfd & Hp & _).
    by exists rs, rd, cs, cd.
Qed.

(** X12: a write cannot end well when the source of one of the entries is
    not a regular file and no copy of the write goes to the source's
    path. *)
Theorem write_needs_every_source (repo : ArtifactRepo.t)
    (target_dir : string) (m : fs) (group_id : string) (group : Group.t)
    (artifact : Artifact.t) (version : string)
    (entries : list ArtifactEntry.t) (entry : ArtifactEntry.t) :
  Dict.get group_id (ArtifactRepo.groups repo) = Some group ->
  In artifact (Group.artifacts group) ->
  Dict.get version (Artifact.versioned_entries artifact) = Some entries ->
  In entry entries ->
  (forall rs c,
     os.resolve cwd (ArtifactEntry.get_full_path entry) = Some rs ->
     m !! rs <> Some (File c)) ->
  (forall op, In op (copy_plan repo target_dir) ->
     copy_dst cwd op
     <> os.resolve cwd (ArtifactEntry.get_full_path entry)) ->
  exists e, fst (MavenRepoWriter.write cwd repo target_dir m) = Raise e.
Proof.
  intros Hg Ha Hv He Hmissing Hoff.
  destruct (MavenRepoWriter.write cwd repo target_dir m) as [[[]|e] m'] eqn:Hw;
    [|by exists e].
  apply write_ok_inv in Hw as (m0 & _ & Hgrow & Hrun).
  pose proof (copy_plan_in repo target_dir _ _ _ _ _ _ Hg Ha Hv He) as Hin.
  destruct (run_plan_settles cwd _ m0 m' Hrun _ Hin)
    as (rs & rd & cs & cd & Hs & _ & _ & Hfs & _).
  unfold copy_src in Hs. simpl in Hs.
  destruct (Hmissing rs cs Hs).
  apply (grown_file m m0); [apply Hgrow|].
  apply (grown_file m0 m'); [|done].
  apply (run_plan_frame cwd _ m0 m' rs Hrun).
  intros op Hop. rewrite <- Hs. by apply Hoff.
Qed.
End WriterFrame.


Lemma last_copy_to_a_location_wins_witness :
  exists rs rd content,
    copy_src [] ("/target/org/foo/bar/1.0.0", entry_aaaa) = Some rs
    /\ copy_dst [] ("/target/org/foo/bar/1.0.0", entry_aaaa) = Some rd
    /\ cache_two_hashes !! rs = Some (File content)
    /\ snd (MavenRepoWriter.write [] repo_two_hashes "/target"
              cache_two_hashes) !! rd = Some (File content).
Proof.
  apply (last_copy_to_a_location_wins [] repo_two_hashes "/target"
           cache_two_hashes _
           [("/target/org/foo/bar/1.0.0", entry_bbbb);
            ("/target/org/foo/bar/1.0.0", entry_bbbb)]
           []).
  - apply io_ok_snd. vm_compute. reflexivity.
  - vm_compute. reflexivity.
  - intros op' [].
  - intros op' [<-|[<-|[]]]; vm_compute; discriminate.
Defined.

Lemma write_leaves_a_file_for_every_entry_witness :
  os.path_exists []
    (snd (MavenRepoWriter.write [] repo_two_hashes "/target"
            cache_two_hashes)) "/target" = true
  /\ exists rs rd cs cd,
       os.resolve [] (ArtifactEntry.get_full_path entry_bbbb) = Some rs
       /\ os.resolve []
            (target_location "/target" group_two_hashes artifact_two_hashes
               "1.0.0" entry_bbbb) = Some rd
       /\ snd (MavenRepoWriter.write [] repo_two_hashes "/target"
                 cache_two_hashes) !! rs = Some (File cs)
       /\ snd (MavenRepoWriter.write [] repo_two_hashes "/target"
                 cache_two_hashes) !! rd = Some (File cd)
       /\ snd (MavenRepoWriter.write [] repo_two_hashes "/target"
                 cache_two_hashes) !! removelast rd = Some Dir.
Proof.
  apply (write_leaves_a_file_for_every_entry [] repo_two_hashes "/target"
           cache_two_hashes _ "org.foo" group_two_hashes artifact_two_hashes
           "1.0.0" [entry_bbbb; entry_bbbb; entry_aaaa] entry_bbbb).
  - apply io_ok_snd. vm_compute. reflexivity.
  - reflexivity.
  - simpl. tauto.
  - reflexivity.
  - simpl. tauto.
Defined.

Lemma write_needs_every_source_witness :
  exists e,
    fst (MavenRepoWriter.write [] repo_one_jar "/target" cache_empty)
    = Raise e.
Proof.
  apply (write_needs_every_source [] repo_one_jar "/target" cache_empty
           "org.foo" group_one_jar artifact_one_jar "1.0.0"
           [entry_jar; entry_jar] entry_jar).
  - reflexivity.
  - simpl. tauto.
  - reflexivity.
  - simpl. tauto.
  - intros rs c Hrs. vm_compute in Hrs. injection Hrs as <-.
    vm_compute. discriminate.
  - intros op [<-|[<-|[]]]; vm_compute; discriminate.
Defined.

Lemma str_replace_back (old new : ascii) (s : string) :
  (forall i, String.get i s <> Some new) ->
  str_replace new old (str_replace old new s) = s.
Proof.
  induction s as [|c s IH]; intros Hnew; simpl; [done|].
  rewrite IH by (intros i; apply (Hnew (S i))). f_equal.
  destruct (Ascii.eqb_spec c old) as [->|Hold].
  - by rewrite Ascii.eqb_refl.
  - destruct (Ascii.eqb_spec c new) as [->|_]; [|done].
    by destruct (Hnew 0).
Qed.

(** X13: on group identifiers without ['/'] (the names of directories) the
    conversion to a path loses nothing: putting the dots back gives the
    identifier, so that two such groups with the same path have the same
    identifier. *)
Theorem get_as_path_is_injective (g1 g2 : Group.t) :
  (forall i, String.get i (Group.id g1) <> Some "/"%char) ->
  (forall i, String.get i (Group.id g2) <> Some "/"%char) ->
  str_replace "/" "." (Group.get_as_path g1) = Group.id g1
  /\ (Group.get_as_path g1 = Group.get_as_path g2 ->
      Group.id g1 = Group.id g2).
Proof.
  intros H1 H2. unfold Group.get_as_path.
  split; [by apply str_replace_back|].
  intros Heq. rewrite <- (str_replace_back "." "/" (Group.id g1) H1).
  rewrite <- (str_replace_back "." "/" (Group.id g2) H2). by rewrite Heq.
Qed.

Lemma get_as_path_is_injective_witness :
  str_replace "/" "." (Group.get_as_path group_one_jar)
  = Group.id group_one_jar
  /\ (Group.get_as_path group_one_jar = Group.get_as_path group_two_hashes ->
      Group.id group_one_jar = Group.id group_two_hashes).
Proof.
  apply (get_as_path_is_injective group_one_jar group_two_hashes);
    intros i; do 7 (destruct i as [|i]; [discriminate|]); discriminate.
Defined.

(** X14: for a group whose identifier starts with a dot the group path
    starts with a separator, and [os.path.join] then drops the target
    directory: the locations the writer computes for the group's entries
    are the same whatever target directory it is given. *)
Theorem dotted_group_ignores_target (g : Group.t) (rest : string)
    (target_dir target_dir' : string) :
  Group.id g = String "." rest ->
  os.path_join target_dir (Group.get_as_path g)
  = String "/" (str_replace "." "/" rest)
  /\ plan_of_group target_dir g = plan_of_group target_dir' g.
Proof.
  intros Hid.
  assert (Hjoin : forall t,
            os.path_join t (Group.get_as_path g)
            = String "/" (str_replace "." "/" rest)).
  { intros t. unfold Group.get_as_path. rewrite Hid.
    unfold os.path_join, str_startswith. cbn [str_replace].
    rewrite Ascii.eqb_refl. cbn [String.prefix].
    destruct (ascii_dec "/" "/"); [|done].
    by destruct (str_replace "." "/" rest). }
  split; [apply Hjoin|]. unfold plan_of_group. by rewrite !Hjoin.
Qed.

Lemma dotted_group_ignores_target_witness :
  os.path_join "/target" (Group.get_as_path group_hidden) = "/hidden"
  /\ plan_of_group "/target" group_hidden
     = plan_of_group "/elsewhere" group_hidden.
Proof.
  apply (dotted_group_ignores_target group_hidden "hidden" "/target"
           "/elsewhere").
  reflexivity.
Defined.

(** X15: without the pre-clean flag, a run on a cache directory whose name
    holds no wildcard character and whose [caches] directory cannot be
    listed ends as the making of the target directory does, for a target
    given by a path in normal form: with nothing changed when the target
    exists, and with what [os.makedirs] does otherwise. *)
Theorem main_without_module_storage (cwd : list string) (a : args) (m : fs)
    (e : exn) :
  glob.has_magic (gradle_cache_dir a) = false ->
  os.plain (target_mvn_dir a) = true ->
  os.listdir cwd m (os.path_join (gradle_cache_dir a) "caches") = Raise e ->
  pre_clean_mvn_dir a = false ->
  main cwd a m
  = if os.path_exists cwd m (target_mvn_dir a)
    then (Ok tt, m)
    else os.makedirs cwd (target_mvn_dir a) m.
Proof.
  intros _ _ Hls Hpre. rewrite main_unfold, Hpre.
  unfold GradleCache.load, GradleCache.generate_groups.
  rewrite (glob_nothing_to_list cwd m _ e Hls). cbn [rfold rbind].
  unfold GradleCache.generate_artifacts. cbn.
  rewrite write_as_plan.
  destruct (os.path_exists cwd m (target_mvn_dir a)); cbn; [done|].
  by destruct (os.makedirs cwd (target_mvn_dir a) m) as [[[]|err] m0].
Qed.

Lemma main_without_module_storage_witness :
  main [] (run_args false) cache_empty
  = if os.path_exists [] cache_empty "/target"
    then (Ok tt, cache_empty)
    else os.makedirs [] "/target" cache_empty.
Proof.
  apply (main_without_module_storage [] (run_args false) cache_empty
           FileNotFoundError).
  - reflexivity.
  - reflexivity.
  - vm_compute. reflexivity.
  - reflexivity.
Defined.

Lemma append_entry_never_raises_witness :
  exists a',
    Artifact.append_entry artifact_one_jar "1.0.0" entry_aaaa = Ok a'
    /\ Artifact.get_entries a' "1.0.0"
       = Ok [entry_jar; entry_jar; entry_aaaa]
    /\ Artifact.get_versions a' = ["1.0.0"].
Proof.
  destruct (append_entry_never_raises artifact_one_jar "1.0.0" entry_aaaa)
    as (a' & Hrun & _ & _ & Hget & _ & Hkeys).
  exists a'. split; [exact Hrun|]. split; [exact Hget | exact Hkeys].
Defined.

Lemma get_entries_raises_off_versions_witness :
  Artifact.get_entries artifact_one_jar "2.0.0" = Raise KeyError.
Proof.
  apply (get_entries_raises_off_versions artifact_one_jar "2.0.0").
  simpl. intros [H|[]]. discriminate.
Defined.

Lemma add_group_new_id_appends_witness :
  ArtifactRepo.add_group ArtifactRepo.init group_one_jar = Ok repo_one_jar.
Proof.
  apply (add_group_new_id_appends ArtifactRepo.init repo_one_jar
           group_one_jar).
  split; reflexivity.
Defined.

(** * From the cache to the target *)

Section EndToEnd.
Variable cwd : list string.
Variable m : fs.

Lemma versions_pass_entries (artifact_path : string)
    (versions : list string) :
  forall a art : Artifact.t,
    rfold
      (fun a v =>
         GradleCache.load_artifact_entries_by_version cwd m a artifact_path v)
      versions a = Ok art ->
    (forall v l e,
       Dict.get v (Artifact.versioned_entries a) = Some l -> In e l ->
       exists l',
         Dict.get v (Artifact.versioned_entries art) = Some l' /\ In e l')
    /\ (forall v es e,
          In v versions ->
          discovered_entries cwd m artifact_path v = Ok es ->
          In e es ->
          exists l',
            Dict.get v (Artifact.versioned_entries art) = Some l'
            /\ In e l').
Proof.
  induction versions as [|v0 versions IH]; intros a art Hrun;
    cbn [rfold] in Hrun.
  - injection Hrun as <-. split; [|done]. intros v l e Hl He. by exists l.
  - apply rbind_ok in Hrun as (a1 & Hv0 & Hrun).
    apply scan_version_ok_inv in Hv0 as (es0 & Hes0 & Happ).
    destruct (append_all_effect v0 es0 a)
      as (a1' & Happ' & _ & _ & Hother & _ & Hget).
    assert (a1' = a1) as -> by congruence.
    destruct (IH a1 art Hrun) as [Hmono Hnew].
    assert (Hmono1 : forall v l e,
              Dict.get v (Artifact.versioned_entries a) = Some l -> In e l ->
              exists l',
                Dict.get v (Artifact.versioned_entries a1) = Some l'
                /\ In e l').
    { intros v l e Hl He. destruct (String.eqb_spec v v0) as [->|Hne].
      - rewrite Hget, Hl. destruct es0 as [|e0 es0]; [by exists l|].
        eexists. split; [done|]. apply in_app_iff. by left.
      - exists l. by rewrite (Hother v Hne). }
    split.
    + intros v l e Hl He. destruct (Hmono1 v l e Hl He) as (l1 & Hl1 & He1).
      by apply (Hmono v l1).
    + intros v es e [<-|Hv] Hes He; [|by apply (Hnew v es)].
      assert (es = es0) as -> by congruence.
      assert (exists l1,
                Dict.get v0 (Artifact.versioned_entries a1) = Some l1
                /\ In e l1) as (l1 & Hl1 & He1).
      { rewrite Hget. destruct es0 as [|e0 es0]; [done|].
        destruct (Dict.get v0 (Artifact.versioned_entries a)) as [l|].
        - eexists. split; [done|]. apply in_app_iff. by right.
        - eexists. split; [done | by right]. }
      by apply (Hmono v0 l1).
Qed.

Lemma load_artifact_entries (n : nat) (artifact_path artifact_id : string)
    (art : Artifact.t) (versions : list string) (v : string)
    (es : list ArtifactEntry.t) (e : ArtifactEntry.t) :
  GradleCache.load_artifact cwd m n artifact_path artifact_id = Ok art ->
  os.listdir cwd m artifact_path = Ok versions ->
  In v versions ->
  discovered_entries cwd m artifact_path v = Ok es ->
  In e es ->
  exists l, Dict.get v (Artifact.versioned_entries art) = Some l /\ In e l.
Proof.
  unfold GradleCache.load_artifact. intros Hload Hls Hv Hes He.
  rewrite Hls in Hload. cbn [rbind] in Hload.
  apply versions_pass_entries in Hload as [_ Hnew].
  by apply (Hnew v es).
Qed.

Lemma scan_complete (cache_dir : string) (repo : ArtifactRepo.t)
    (group_id artifact_id version : string) (e : ArtifactEntry.t) :
  GradleCache.load cwd m cache_dir = Ok repo ->
  in_cache cwd m cache_dir group_id artifact_id version e ->
  exists group artifact entries,
    Dict.get group_id (ArtifactRepo.groups repo) = Some group
    /\ Group.id group = group_id
    /\ In artifact (Group.artifacts group)
    /\ Artifact.id artifact = artifact_id
    /\ Dict.get version (Artifact.versioned_entries artifact) = Some entries
    /\ In e entries.
Proof.
  intros Hload (found & mp & aids & versions & es & Hfound & Hd & Hla & Ha
                & Hlv & Hv & Hes & He).
  apply load_structure in Hload
    as (found' & Hfound' & _ & _ & Hall).
  assert (found' = found) as -> by congruence.
  destruct (Hall _ Hd)
    as (g & names & Hg & Hid & Hpath & Hls & Hids & _ & Hloaded).
  simpl in *. rewrite Hpath in Hls.
  assert (names = aids) as -> by congruence.
  rewrite <- Hids in Ha. apply in_map_iff in Ha as (art & Hart & Hin).
  pose proof (proj1 (Forall_forall _ _) Hloaded art
                (proj2 (list_elem_of_In _ _) Hin)) as Hl.
  unfold loaded_from in Hl. rewrite Hpath, Hart in Hl.
  destruct (load_artifact_entries _ _ _ _ _ _ _ _ Hl Hlv Hv Hes He)
    as (l & Hget & Hel).
  by exists g, art, l.
Qed.

(** X16: a scan that ends well misses nothing: every file the cache holds
    under group/artifact/version/content-hash is an entry of that version
    of an artifact with that identifier in the group stored under that
    name. *)
Theorem scan_finds_every_file (cache_dir : string) (repo : ArtifactRepo.t)
    (group_id artifact_id version : string) (e : ArtifactEntry.t) :
  GradleCache.load cwd m cache_dir = Ok repo ->
  in_cache cwd m cache_dir group_id artifact_id version e ->
  exists group artifact entries,
    Dict.get group_id (ArtifactRepo.groups repo) = Some group
    /\ Group.id group = group_id
    /\ In artifact (Group.artifacts group)
    /\ Artifact.id artifact = artifact_id
    /\ Artifact.get_entries artifact version = Ok entries
    /\ In e entries.
Proof.
  intros Hload Hin.
  destruct (scan_complete _ _ _ _ _ _ Hload Hin)
    as (g & art & l & Hg & Hid & Hart & Haid & Hget & He).
  exists g, art, l. unfold Artifact.get_entries, Dict.item.
  by rewrite Hget.
Qed.

(** X17: after a run that ends well, with or without the pre-clean flag,
    every file the cache held at the start has a regular file, in a
    directory, at [os.path.join] of the target directory, the group name
    with its dots replaced, the artifact name, the version name and the
    file name. *)
Theorem run_leaves_a_file_for_every_cache_file (a : args) (m' : fs)
    (group_id artifact_id version : string) (e : ArtifactEntry.t) :
  main cwd a m = (Ok tt, m') ->
  in_cache cwd m (gradle_cache_dir a) group_id artifact_id version e ->
  exists rd content,
    os.resolve cwd
      (os.path_join
         (os.path_join
            (os.path_join
               (os.path_join (target_mvn_dir a)
                  (str_replace "." "/" group_id))
               artifact_id)
            version)
         (ArtifactEntry.file_name e)) = Some rd
    /\ m' !! rd = Some (File content)
    /\ m' !! removelast rd = Some Dir.
Proof.
  intros Hmain Hin. rewrite main_unfold in Hmain.
  destruct (GradleCache.load cwd m (gradle_cache_dir a)) as [repo|err]
    eqn:Hload; [|discriminate].
  destruct (scan_complete _ _ _ _ _ _ Hload Hin)
    as (g & art & l & Hg & Hid & Hart & Haid & Hget & He).
  assert (Hwrite : exists m1,
            MavenRepoWriter.write cwd repo (target_mvn_dir a) m1 = (Ok tt, m')).
  { destruct (pre_clean_mvn_dir a); [|by exists m].
    destruct (cleanup_mvn_dir cwd (target_mvn_dir a) m) as [[[]|err] m1];
      [by exists m1 | discriminate]. }
  destruct Hwrite as [m1 Hwrite].
  apply write_ok_inv in Hwrite as (m0 & _ & _ & Hrun).
  pose proof (copy_plan_in repo (target_mvn_dir a) _ _ _ _ _ _ Hg Hart Hget He)
    as Hplan.
  destruct (run_plan_settles cwd _ m0 m' Hrun _ Hplan)
    as (rs & rd & cs & cd & _ & Hd & _ & _ & Hfd & Hp & _).
  exists rd, cd. unfold copy_dst in Hd. simpl in Hd.
  unfold Group.get_as_path in Hd. rewrite Hid, Haid in Hd. by repeat split.
Qed.
End EndToEnd.

Lemma jar_in_cache_one_jar :
  in_cache [] cache_one_jar "/cache" "org.foo" "bar" "1.0.0" entry_jar.
Proof.
  exists [("/cache/caches/modules-2/files-2.1", "org.foo")],
    "/cache/caches/modules-2/files-2.1", ["bar"], ["1.0.0"], [entry_jar].
  repeat split; try (vm_compute; reflexivity); simpl; tauto.
Qed.

Lemma scan_finds_every_file_witness :
  exists group artifact entries,
    Dict.get "org.foo" (ArtifactRepo.groups repo_one_jar) = Some group
    /\ Group.id group = "org.foo"
    /\ In artifact (Group.artifacts group)
    /\ Artifact.id artifact = "bar"
    /\ Artifact.get_entries artifact "1.0.0" = Ok entries
    /\ In entry_jar entries.
Proof.
  apply (scan_finds_every_file [] cache_one_jar "/cache" repo_one_jar
           "org.foo" "bar" "1.0.0" entry_jar).
  - vm_compute. reflexivity.
  - apply jar_in_cache_one_jar.
Defined.

Lemma run_leaves_a_file_for_every_cache_file_witness :
  exists rd content,
    os.resolve []
      (os.path_join
         (os.path_join
            (os.path_join
               (os.path_join "/target" (str_replace "." "/" "org.foo"))
               "bar")
            "1.0.0")
         (ArtifactEntry.file_name entry_jar)) = Some rd
    /\ snd (main [] (run_args false) cache_one_jar) !! rd
       = Some (File content)
    /\ snd (main [] (run_args false) cache_one_jar) !! removelast rd
       = Some Dir.
Proof.
  apply (run_leaves_a_file_for_every_cache_file [] cache_one_jar
           (run_args false) _ "org.foo" "bar" "1.0.0" entry_jar).
  - apply io_ok_snd. vm_compute. reflexivity.
  - apply jar_in_cache_one_jar.
Defined.

(** X18: after a run without the pre-clean flag that ends well, a file the
    cache held at the start has its bytes at [os.path.join] of the target
    directory, the group name with its dots replaced, the artifact name,
    the version name and the file name, provided no copy of the run goes to
    the cache file and every copy that goes to that location comes from
    the cache file. *)
Theorem run_copies_unshadowed_cache_file (cwd : list string) (a : args)
    (repo : ArtifactRepo.t) (m m' : fs)
    (group_id artifact_id version : string) (e : ArtifactEntry.t) :
  pre_clean_mvn_dir a = false ->
  GradleCache.load cwd m (gradle_cache_dir a) = Ok repo ->
  main cwd a m = (Ok tt, m') ->
  in_cache cwd m (gradle_cache_dir a) group_id artifact_id version e ->
  (forall op, In op (copy_plan repo (target_mvn_dir a)) ->
     copy_dst cwd op <> os.resolve cwd (ArtifactEntry.get_full_path e)) ->
  (forall op, In op (copy_plan repo (target_mvn_dir a)) ->
     copy_dst cwd op
     = os.resolve cwd
         (os.path_join
            (os.path_join
               (os.path_join
                  (os.path_join (target_mvn_dir a)
                     (str_replace "." "/" group_id))
                  artifact_id)
               version)
            (ArtifactEntry.file_name e)) ->
     copy_src cwd op = os.resolve cwd (ArtifactEntry.get_full_path e)) ->
  exists rs rd content,
    os.resolve cwd (ArtifactEntry.get_full_path e) = Some rs
    /\ os.resolve cwd
         (os.path_join
            (os.path_join
               (os.path_join
                  (os.path_join (target_mvn_dir a)
                     (str_replace "." "/" group_id))
                  artifact_id)
               version)
            (ArtifactEntry.file_name e)) = Some rd
    /\ m !! rs = Some (File content)
    /\ m' !! rd = Some (File content).
Proof.
  intros Hpre Hload Hmain Hin Hsrc Hdst.
  rewrite main_unfold, Hload, Hpre in Hmain.
  destruct (scan_complete cwd m _ _ _ _ _ _ Hload Hin)
    as (g & art & l & Hg & Hid & Hart & Haid & Hget & He).
  apply write_ok_inv in Hmain as (m0 & _ & Hgrow & Hrun).
  pose proof (copy_plan_in repo (target_mvn_dir a) _ _ _ _ _ _ Hg Hart Hget He)
    as Hplan.
  unfold Group.get_as_path in Hplan. rewrite Hid, Haid in Hplan.
  destruct (run_plan_copy cwd _ m0 m' _ Hrun Hplan Hsrc Hdst)
    as (rs & rd & c & Hs & Hd & Hm0 & _ & Hrd).
  exists rs, rd, c. repeat split; try done.
  by apply (grown_file m m0).
Qed.

Lemma run_copies_unshadowed_cache_file_witness :
  exists rs rd content,
    os.resolve [] (ArtifactEntry.get_full_path entry_jar) = Some rs
    /\ os.resolve []
         (os.path_join
            (os.path_join
               (os.path_join
                  (os.path_join "/target" (str_replace "." "/" "org.foo"))
                  "bar")
               "1.0.0")
            (ArtifactEntry.file_name entry_jar)) = Some rd
    /\ cache_one_jar !! rs = Some (File content)
    /\ snd (main [] (run_args false) cache_one_jar) !! rd
       = Some (File content).
Proof.
  apply (run_copies_unshadowed_cache_file [] (run_args false) repo_one_jar
           cache_one_jar _ "org.foo" "bar" "1.0.0" entry_jar).
  - reflexivity.
  - vm_compute. reflexivity.
  - apply io_ok_snd. vm_compute. reflexivity.
  - apply jar_in_cache_one_jar.
  - intros op [<-|[<-|[]]]; vm_compute; discriminate.
  - intros op [<-|[<-|[]]] _; reflexivity.
Defined.

(** * The errors a scan can end with *)


Section ScanErrorClass.
Variable cwd : list string.
Variable m : fs.









End ScanErrorClass.

